(** * rescape_graphene: schema helpers

    A shallow embedding of [rescape_graphene/graphql_helpers/schema_helpers.py]
    and the properties of its field-configuration filters, filter-argument
    tables, update-or-create parameters, ORM query keyword processing,
    safe deletion and sequential querying.

    Python values are modelled by one universe [pyval]; dicts are association
    lists in insertion order, the way Python iterates them.  Code that can
    raise returns a [result].  The helpers the module imports from
    [rescape_python_helpers.ramda] (as [R]) are collected in [Module R]. *)

From Stdlib Require Import ZArith Ascii String List Bool Lia.
From stdpp Require Import base option list strings gmap.

Local Open Scope string_scope.
Local Open Scope list_scope.

(* ===================================================================== *)
(** * Python strings *)
(* ===================================================================== *)

Module PyStr.

(** [s.endswith(suffix)]: [suffix] is [s] or the end of its tail. *)
Fixpoint endswith (suffix s : string) : bool :=
  String.eqb suffix s
  || match s with
     | EmptyString => false
     | String _ s' => endswith suffix s'
     end.

(** [sub in s] for two strings *)
Fixpoint contains (sub s : string) : bool :=
  match s with
  | EmptyString => String.prefix sub EmptyString
  | String _ s' => String.prefix sub s || contains sub s'
  end.

(** The scan of [s.replace(old, new)] for a non-empty [old]: left to right,
    occurrences do not overlap; [skip] counts the characters of the
    occurrence just replaced that are still to be passed over. *)
Fixpoint replace_from (old new : string) (skip : nat) (s : string) : string :=
  match s with
  | EmptyString => EmptyString
  | String c s' =>
      match skip with
      | S k => replace_from old new k s'
      | O =>
          if String.prefix old s
          then new +:+ replace_from old new (String.length old - 1) s'
          else String c (replace_from old new 0 s')
      end
  end.

(** With an empty [old] Python puts [new] before every character and at the
    end of the string. *)
Fixpoint intersperse (new s : string) : string :=
  match s with
  | EmptyString => new
  | String c s' => new +:+ String c (intersperse new s')
  end.

(** [s.replace(old, new)] *)
Definition replace (old new s : string) : string :=
  match old with
  | EmptyString => intersperse new s
  | String _ _ => replace_from old new 0 s
  end.

(** The scan of [s.split(sep)] for a non-empty [sep]; [cur] is the piece
    being read, in reverse. *)
Fixpoint split_from (sep : string) (skip : nat) (cur : string) (s : string)
  : list string :=
  match s with
  | EmptyString => [String.rev cur]
  | String c s' =>
      match skip with
      | S k => split_from sep k cur s'
      | O =>
          if String.prefix sep s
          then String.rev cur :: split_from sep (String.length sep - 1) EmptyString s'
          else split_from sep 0 (String c cur) s'
      end
  end.

(** [s.split(sep)], [sep] not empty (Python raises ValueError otherwise) *)
Definition split (sep s : string) : list string := split_from sep 0 EmptyString s.

(** [sep.join(parts)] *)
Fixpoint join (sep : string) (parts : list string) : string :=
  match parts with
  | [] => EmptyString
  | [p] => p
  | p :: ps => p +:+ sep +:+ join sep ps
  end.

(** Every underscore written twice. *)
Fixpoint double_underscores (s : string) : string :=
  match s with
  | EmptyString => EmptyString
  | String c s' =>
      if Ascii.eqb c "_" then String "_" (String "_" (double_underscores s'))
      else String c (double_underscores s')
  end.

End PyStr.

(* ===================================================================== *)
(** * Python values, exceptions *)
(* ===================================================================== *)

(** The values the helpers handle.  A class object is known by its name and
    the names of its ancestors; [PLambda0 v] is a no-argument lambda that
    returns [v] (the lazy form of a field configuration entry); [PFun] is any
    other function, known by a name and its number of parameters; [PCall] is
    an object known by the call that made it: an instance of a class, the
    value of a function. *)
#[warning="-register-all"]
Inductive pyval : Type :=
  | PNone
  | PBool (b : bool)
  | PInt (n : Z)
  | PStr (s : string)
  | PList (xs : list pyval)
  | PDict (kvs : list (string * pyval))
  | PClass (name : string) (bases : list string)
  | PLambda0 (body : pyval)
  | PFun (name : string) (arity : nat)
  | PCall (f : pyval) (args : list pyval) (kwargs : list (string * pyval)).

(** A Python dict with string keys, in insertion order. *)
Abbreviation dict := (list (string * pyval)).

Inductive exn : Type :=
  | KeyError (key : string)
  | TypeError
  | AttributeError
  | AssertionError (msg : string)
  | NameError (name : string)
  | DoesNotExist
  | Exception (msg : string).

Inductive result (A : Type) : Type :=
  | Ok (a : A)
  | Raise (e : exn).
Arguments Ok {A} a.
Arguments Raise {A} e.

Definition bind {A B} (r : result A) (k : A -> result B) : result B :=
  match r with
  | Ok a => k a
  | Raise e => Raise e
  end.

Declare Scope py_scope.
Delimit Scope py_scope with py.
Notation "'do' x <- c1 ; c2" := (bind c1 (fun x => c2))
  (at level 10, x name, c1 at level 100, c2 at level 200) : py_scope.
Local Open Scope py_scope.

(** [for x in xs: f(x)] collecting the results; the first exception stops it. *)
Fixpoint mapM {A B} (f : A -> result B) (xs : list A) : result (list B) :=
  match xs with
  | [] => Ok []
  | x :: xs' => do y <- f x ; do ys <- mapM f xs' ; Ok (y :: ys)
  end.

(** [filter(f, xs)] with a predicate that can raise. *)
Fixpoint filterM {A} (f : A -> result bool) (xs : list A) : result (list A) :=
  match xs with
  | [] => Ok []
  | x :: xs' =>
      do b <- f x ; do ys <- filterM f xs' ; Ok (if b then x :: ys else ys)
  end.

(** Truth value of an object: [None], [False], zero and empty containers are
    false, everything else (classes, functions, instances) is true. *)
Definition truthy (v : pyval) : bool :=
  match v with
  | PNone => false
  | PBool b => b
  | PInt n => negb (n =? 0)%Z
  | PStr s => negb (String.eqb s "")
  | PList xs => match xs with [] => false | _ => true end
  | PDict kvs => match kvs with [] => false | _ => true end
  | _ => true
  end.

Definition is_none (v : pyval) : bool :=
  match v with PNone => true | _ => false end.

(** [v == s] for a string constant [s]. *)
Definition eq_str (v : pyval) (s : string) : bool :=
  match v with PStr s' => String.eqb s' s | _ => false end.

(** ** Dicts *)

Module Dict.
Section Entries.
Context {A : Type}.

Fixpoint get (k : string) (d : list (string * A)) : option A :=
  match d with
  | [] => None
  | (k', v) :: d' => if String.eqb k' k then Some v else get k d'
  end.

Definition has (k : string) (d : list (string * A)) : bool :=
  match get k d with Some _ => true | None => false end.

Definition keys (d : list (string * A)) : list string := map fst d.
Definition values (d : list (string * A)) : list A := map snd d.

(** [d[k] = v]: an existing key keeps its place, a new one goes last. *)
Fixpoint set (k : string) (v : A) (d : list (string * A)) : list (string * A) :=
  match d with
  | [] => [(k, v)]
  | (k', v') :: d' =>
      if String.eqb k' k then (k', v) :: d' else (k', v') :: set k v d'
  end.

(** [dict(pairs)]: later pairs overwrite earlier ones. *)
Definition of_pairs (pairs : list (string * A)) : list (string * A) :=
  fold_left (fun acc kv => set (fst kv) (snd kv) acc) pairs [].

(** The entries of [d2] written over [d1], as in [d1.update(d2)]. *)
Definition update (d1 d2 : list (string * A)) : list (string * A) :=
  fold_left (fun acc kv => set (fst kv) (snd kv) acc) d2 d1.
End Entries.
End Dict.

(** [key in x]: membership for the containers, [TypeError] otherwise. *)
Definition py_in (key : string) (x : pyval) : result bool :=
  match x with
  | PDict d => Ok (Dict.has key d)
  | PList xs => Ok (existsb (fun v => eq_str v key) xs)
  | PStr s => Ok (PyStr.contains key s)
  | _ => Raise TypeError
  end.

(** [x[key]] for a string key. *)
Definition py_getitem (key : string) (x : pyval) : result pyval :=
  match x with
  | PDict d =>
      match Dict.get key d with
      | Some v => Ok v
      | None => Raise (KeyError key)
      end
  | _ => Raise TypeError
  end.

(** [x.items()] *)
Definition py_items (x : pyval) : result dict :=
  match x with
  | PDict d => Ok d
  | _ => Raise AttributeError
  end.

(** [issubclass(c, d)] for class objects: [d] is [c] or one of its ancestors. *)
Definition issubclass (c d : pyval) : result bool :=
  match c, d with
  | PClass cn bases, PClass dn _ =>
      Ok (String.eqb cn dn || existsb (String.eqb dn) bases)
  | _, _ => Raise TypeError
  end.

(** [inspect.isclass(x)] *)
Definition isclass (x : pyval) : bool :=
  match x with PClass _ _ => true | _ => false end.

(** [isinstance(x, (dict, list))] *)
Definition is_dict_or_list (x : pyval) : bool :=
  match x with PDict _ | PList _ => true | _ => false end.

(* ===================================================================== *)
(** * The helpers of [rescape_python_helpers.ramda]

    The module is not part of this repository.  Each helper follows its
    documented contract, on the values above. *)
(* ===================================================================== *)

Module R.

(** [R.has(prop, x)]: [prop in x] for a dict, [hasattr(x, prop)] otherwise;
    the other values of [pyval] carry no data attributes. *)
Definition has (prop : string) (x : pyval) : bool :=
  match x with
  | PDict d => Dict.has prop d
  | _ => false
  end.

(** [R.prop(key, x)]: the entry, an exception when there is none. *)
Definition prop (key : string) (x : pyval) : result pyval :=
  match x with
  | PDict d =>
      match Dict.get key d with
      | Some v => Ok v
      | None => Raise (Exception ("No key " +:+ key +:+ " found"))
      end
  | _ => Raise (Exception ("No key " +:+ key +:+ " found"))
  end.

(** [R.prop_or(default, key, x)]: the entry; [default] when the key is
    missing or its value is [None].  Other false values are returned as
    they are. *)
Definition prop_or (default : pyval) (key : string) (x : pyval) : pyval :=
  match x with
  | PDict d =>
      match Dict.get key d with
      | Some v => if is_none v then default else v
      | None => default
      end
  | _ => default
  end.

(** [R.getitem(key, x)] is [x[key]]. *)
Definition getitem (key : string) (x : pyval) : result pyval := py_getitem key x.

(** [R.prop_eq_or(default, key, value, dct)] is
    [dct[key] and dct[key] == value if key in dct else default]. *)
Definition prop_eq_or (default : pyval) (key value : string) (dct : pyval)
  : result pyval :=
  do b <- py_in key dct ;
  if b : bool
  then do v <- py_getitem key dct ;
       Ok (if truthy v then PBool (eq_str v value) else v)
  else Ok default.

(** [R.prop_eq_or_in_or(default, key, value, dct)]: true if [dct[key]] is
    equal to [value], or is a list that contains [value]; [default] when
    the key is missing. *)
Definition prop_eq_or_in_or (default : pyval) (key value : string) (dct : pyval)
  : pyval :=
  match dct with
  | PDict d =>
      match Dict.get key d with
      | Some v =>
          PBool (eq_str v value ||
                 match v with
                 | PList xs => existsb (fun x => eq_str x value) xs
                 | _ => false
                 end)
      | None => default
      end
  | _ => default
  end.

(** [R.prop_eq_or_in(key, value, dct)] *)
Definition prop_eq_or_in (key value : string) (dct : pyval) : pyval :=
  prop_eq_or_in_or (PBool false) key value dct.

(** [R.not_func(x)] is [not x]; [R.and_func(a, b)] is [a and b]. *)
Definition not_func (x : pyval) : pyval := PBool (negb (truthy x)).
Definition and_func (a b : pyval) : pyval := if truthy a then b else a.

(** [R.filter_dict(f, dct)] is [dict(filter(f, dct.items()))]. *)
Definition filter_dict (f : string * pyval -> result pyval) (dct : pyval)
  : result dict :=
  do items <- py_items dct ;
  do kept <- filterM (fun kv => do v <- f kv ; Ok (truthy v)) items ;
  Ok (Dict.of_pairs kept).

(** [R.map_with_obj(f, dct)]: the same keys, each value replaced by
    [f(key, value)]. *)
Definition map_with_obj {A} (f : string -> pyval -> result A) (d : dict)
  : result (list (string * A)) :=
  do pairs <- mapM (fun kv => do v <- f (fst kv) (snd kv) ; Ok (fst kv, v)) d ;
  Ok (Dict.of_pairs pairs).

(** [R.map_dict(f, dct)]: the same keys, each value replaced by [f(value)]. *)
Definition map_dict (f : pyval -> result pyval) (d : dict) : result dict :=
  map_with_obj (fun _ v => f v) d.

(** [R.map_with_obj_to_values(f, dct)]: the list of [f(key, value)]. *)
Definition map_with_obj_to_values {A} (f : string -> pyval -> result A) (d : dict)
  : result (list A) :=
  mapM (fun kv => f (fst kv) (snd kv)) d.

(** [R.map_keys_with_obj(f, dct)]: each key replaced by [f(key, value)]. *)
Definition map_keys_with_obj (f : string -> pyval -> string) (d : dict) : dict :=
  Dict.of_pairs (map (fun kv => (f (fst kv) (snd kv), snd kv)) d).

(** [R.omit(keys, dct)] and [R.pick(keys, dct)] *)
Definition omit (ks : list string) (d : dict) : dict :=
  List.filter (fun kv => negb (existsb (String.eqb (fst kv)) ks)) d.
Definition pick (ks : list string) (d : dict) : dict :=
  List.filter (fun kv => existsb (String.eqb (fst kv)) ks) d.

Definition keys {A} (d : list (string * A)) : list string := Dict.keys d.
Definition values {A} (d : list (string * A)) : list A := Dict.values d.
Definition to_pairs (d : dict) : list (string * pyval) := d.
Definition from_pairs (pairs : list (string * pyval)) : dict := Dict.of_pairs pairs.

(** [R.chain(f, xs)]: map and flatten one level. *)
Definition chain {A B} (f : A -> list B) (xs : list A) : list B := flat_map f xs.

(** [R.merge(d1, d2)]: [d2]'s entries over [d1]'s. *)
Definition merge (d1 d2 : dict) : dict := Dict.update d1 d2.

(** [R.merge_all(dcts)]: [reduce(merge, dcts, {})]. *)
Definition merge_all (dcts : list dict) : dict := fold_left merge dcts [].

(** [R.merge_deep(dct1, dct2)] with the default merger of [deepmerge]:
    two dicts are merged key by key, recursively; two lists are appended;
    anything else is overridden by the second value. *)
Fixpoint merge_deep (base nxt : pyval) {struct nxt} : pyval :=
  match nxt with
  | PDict n =>
      match base with
      | PDict b =>
          PDict
            ((fix go (n : dict) (acc : dict) {struct n} : dict :=
                match n with
                | [] => acc
                | (k, v) :: n' =>
                    go n'
                      (match Dict.get k acc with
                       | None => Dict.set k v acc
                       | Some bv => Dict.set k (merge_deep bv v) acc
                       end)
                end) n b)
      | _ => nxt
      end
  | PList n =>
      match base with
      | PList b => PList (b ++ n)
      | _ => nxt
      end
  | _ => nxt
  end.

(** [R.merge_deep_all(dcts)]: [reduce(merge_deep, dcts, {})]. *)
Definition merge_deep_all (dcts : list pyval) : pyval :=
  fold_left merge_deep dcts (PDict []).

(** [R.when(pred, f)(x)]: [f(x)] if [pred(x)], else [x]. *)
Definition when {A} (pred : A -> bool) (f : A -> result A) (x : A) : result A :=
  if pred x then f x else Ok x.

(** [R.item_path_or(default, keys, x)]: follow the keys with [prop_or];
    a missing or [None] step gives [default]. *)
Definition item_path_or (default : pyval) (ks : list string) (x : pyval) : pyval :=
  fold_left
    (fun cur k => prop_or default k (if is_none cur then PDict [] else cur))
    ks x.

(** [R.contains(x, xs)] is [x in xs]. *)
Definition contains (x : string) (xs : pyval) : result bool := py_in x xs.

(** [R.all_satisfy(f, xs)] and [R.any_satisfy(f, xs)] *)
Definition all_satisfy {A} (f : A -> bool) (xs : list A) : bool := forallb f xs.
Definition any_satisfy {A} (f : A -> bool) (xs : list A) : bool := existsb f xs.

(** [R.head(xs)], [R.last(xs)] *)
Definition head {A} (xs : list A) : option A := List.hd_error xs.
Definition last {A} (xs : list A) : option A := List.hd_error (List.rev xs).

(** [R.isfunction(x)] *)
Definition isfunction (x : pyval) : bool :=
  match x with PLambda0 _ | PFun _ _ => true | _ => false end.

(** [R.map_keys_deep(f, dct)]: every key of every dict, at any depth and
    inside lists, replaced by [f(key, value)]. *)
Fixpoint map_keys_deep (f : string -> pyval -> string) (v : pyval) : pyval :=
  match v with
  | PDict kvs =>
      PDict
        (Dict.of_pairs
           ((fix go (kvs : dict) : dict :=
               match kvs with
               | [] => []
               | (k, x) :: t => (f k x, map_keys_deep f x) :: go t
               end) kvs))
  | PList xs => PList (map (map_keys_deep f) xs)
  | _ => v
  end.

End R.

(** [graphene_helpers.call_if_lambda(x)]: a no-argument lambda is called,
    any other value is returned as it is. *)
Definition call_if_lambda (x : pyval) : pyval :=
  match x with PLambda0 v => v | _ => x end.

(* ===================================================================== *)
(** * Constants and the filter table *)
(* ===================================================================== *)

Definition DENY := "deny".
Definition REQUIRE := "require".
Definition UNIQUE := "unique".
Definition IGNORE := "ignore".
Definition PRIMARY := "primary".
Definition ALLOW := "allow".
Definition CREATE := "create".
Definition READ := "read".
Definition UPDATE := "update".
Definition DELETE := "delete".

(** The classes of the GraphQL binding that the module names. *)
Module graphene.
Definition Scalar := PClass "Scalar" [].
Definition ObjectType := PClass "ObjectType" [].
Definition InputObjectType := PClass "InputObjectType" [].
Definition String := PClass "String" ["Scalar"].
Definition Int := PClass "Int" ["Scalar"].
Definition Float := PClass "Float" ["Scalar"].
Definition Boolean := PClass "Boolean" ["Scalar"].
Definition Date := PClass "Date" ["Scalar"].
Definition DateTime := PClass "DateTime" ["Scalar"].
Definition JSONString := PClass "JSONString" ["Scalar"].
(** [lambda typ: graphene.List(typ)] *)
Definition List_of := PFun "lambda typ: graphene.List(typ)" 1.
End graphene.

(** The table chosen by [settings.TESTING]. *)
Definition base_filter_fields (testing : bool) : dict :=
  let date_types := PList [graphene.Date; graphene.DateTime] in
  let number_types :=
    PList [graphene.Int; graphene.Float; graphene.DateTime; graphene.Date] in
  let string_types := PList [graphene.String] in
  let json_types := PList [graphene.JSONString; graphene.InputObjectType] in
  let allowed ts := PDict [("allowed_types", ts)] in
  let list_modifier := PDict [("type_modifier", graphene.List_of)] in
  if testing then
    [ ("contains", PDict []);
      ("icontains", PDict []);
      ("in", list_modifier) ]
  else
    [ ("year", allowed date_types);
      ("month", allowed date_types);
      ("day", allowed date_types);
      ("week_day", allowed date_types);
      ("hour", allowed (PList [graphene.DateTime]));
      ("minute", allowed (PList [graphene.DateTime]));
      ("second", allowed (PList [graphene.DateTime]));
      ("exact", PDict []);
      ("iexact", PDict []);
      ("contains", PDict []);
      ("icontains", PDict []);
      ("in", list_modifier);
      ("gt", allowed number_types);
      ("gte", allowed number_types);
      ("lt", allowed number_types);
      ("lte", allowed number_types);
      ("startswith", allowed string_types);
      ("istartswith", allowed string_types);
      ("endswith", allowed string_types);
      ("iendswith", allowed string_types);
      ("range", list_modifier);
      ("isnull", PDict []);
      ("regex", allowed string_types);
      ("iregex", allowed string_types);
      ("search", allowed string_types);
      ("contained_by", PDict []);
      ("overlap", allowed date_types);
      ("has_key", allowed json_types);
      ("has_keys", allowed json_types);
      ("has_any_keys", allowed json_types);
      ("trigram_similar", allowed string_types) ].

(** The steps composed at [FILTER_FIELDS]: the pairs of the table, each
    followed by its [_not] version with the same value, made a dict again. *)
Definition with_not_versions (pairs : list (string * pyval)) : list (string * pyval) :=
  R.chain (fun key_value => [key_value; (fst key_value +:+ "_not", snd key_value)]) pairs.

Definition FILTER_FIELDS (testing : bool) : dict :=
  R.from_pairs (with_not_versions (R.to_pairs (base_filter_fields testing))).

(* ===================================================================== *)
(** * Calling and classes of values *)
(* ===================================================================== *)

Section Calling.

(** What a class, a named function or an object does when it is called: the
    constructor of a class of the GraphQL binding, the body of a
    ['type_modifier'].  That code is outside the module and it can raise
    (a constructor that needs an argument it is not given raises
    [TypeError]), so the functions that call are stated for any behaviour
    of it. *)
Variable call : pyval -> list pyval -> dict -> result pyval.

(** Calling [f] with positional and keyword arguments.  A no-argument
    lambda returns its body; a class, a function or an object does what
    [call] says; nothing else can be called. *)
Definition py_call (f : pyval) (args : list pyval) (kwargs : dict) : result pyval :=
  match f with
  | PLambda0 v =>
      match args, kwargs with
      | [], [] => Ok v
      | _, _ => Raise TypeError
      end
  | PClass _ _ | PFun _ _ | PCall _ _ _ => call f args kwargs
  | _ => Raise TypeError
  end.

End Calling.

(** The calls of the worked inputs: a scalar class of the binding called
    without positional arguments gives an instance, whatever the keyword
    arguments; [List_of] called with one class gives the list type of it.
    No other call is described, and it is given as raising. *)
Definition scalar_call (f : pyval) (args : list pyval) (kwargs : dict) : result pyval :=
  match f, args with
  | PClass _ bases, [] =>
      if existsb (String.eqb "Scalar") bases
      then Ok (PCall f args kwargs)
      else Raise TypeError
  | PFun _ 1, [PClass _ _] =>
      match kwargs with
      | [] => Ok (PCall f args kwargs)
      | _ => Raise TypeError
      end
  | _, _ => Raise TypeError
  end.

(** [len(inspect.signature(f).parameters)] *)
Definition parameter_count (f : pyval) : nat :=
  match f with PFun _ n => n | _ => 0 end.

(** [x.__class__] *)
Definition class_of (x : pyval) : pyval :=
  match x with
  | PNone => PClass "NoneType" []
  | PBool _ => PClass "bool" ["int"]
  | PInt _ => PClass "int" []
  | PStr _ => PClass "str" []
  | PList _ => PClass "list" []
  | PDict _ => PClass "dict" []
  | PClass _ _ => PClass "type" []
  | PLambda0 _ | PFun _ _ => PClass "function" []
  | PCall (PClass n bases) _ _ => PClass n bases
  | PCall _ _ _ => PClass "object" []
  end.

(** [any(issubclass(c, t) for t in ts)] *)
Fixpoint any_issubclass (c : pyval) (ts : list pyval) : result bool :=
  match ts with
  | [] => Ok false
  | t :: ts' => do b <- issubclass c t ; if b : bool then Ok true else any_issubclass c ts'
  end.

(** [for x in xs] of a value: the elements of a list. *)
Definition py_iter (x : pyval) : result (list pyval) :=
  match x with
  | PList xs => Ok xs
  | _ => Raise TypeError
  end.

(* ===================================================================== *)
(** * The [Decimal] scalar *)
(* ===================================================================== *)

Module DecimalScalar.

(** An object: its class, [str] and [repr]. *)
Record pyobject := {
  ob_type : pyval;
  ob_str : string;
  ob_repr : string
}.

(** [issubclass(c, d)] as a truth value; the type of an object is always a
    class. *)
Definition class_is (c d : pyval) : bool :=
  match issubclass c d with Ok b => b | Raise _ => false end.

(** [isinstance(o, c)] *)
Definition isinstance (o : pyobject) (c : pyval) : bool :=
  class_is (ob_type o) c.

(** The statements of the module that bind a name at top level. *)
Inductive toplevel :=
  | FromImport (name : string) (obj : pyval)
  | ClassDef (name : string) (base_names : list string).

Definition decimal_Decimal := PClass "decimal.Decimal" ["object"].
Definition graphene_Scalar := PClass "graphene.Scalar" ["object"].

Definition class_names (c : pyval) : list string :=
  match c with
  | PClass n bases => n :: bases
  | _ => []
  end.

(** One statement, run on the globals of the module. *)
Definition exec (module_name : string) (globals : gmap string pyval) (s : toplevel)
  : gmap string pyval :=
  match s with
  | FromImport name obj => <[name := obj]> globals
  | ClassDef name base_names =>
      let bases := omap (fun b => globals !! b) base_names in
      <[name := PClass (module_name +:+ "." +:+ name)
                       (List.flat_map class_names bases)]> globals
  end.

(** Line 5, line 16 and line 136 of the module, in that order. *)
Definition module_body : list toplevel :=
  [ FromImport "Decimal" decimal_Decimal;
    FromImport "Scalar" graphene_Scalar;
    ClassDef "Decimal" ["Scalar"] ].

Definition module_globals : gmap string pyval :=
  fold_left (exec "schema_helpers") module_body ∅.

(** The class the module defines at line 136. *)
Definition Decimal := PClass "schema_helpers.Decimal" ["graphene.Scalar"; "object"].

Definition dquote : string := String (Ascii.ascii_of_nat 34) EmptyString.

Definition not_compatible (dec : pyobject) : string :=
  "Received not compatible Decimal " +:+ dquote +:+ ob_repr dec +:+ dquote.

(** [Decimal.serialize(dec)]: the name [Decimal] is looked up in the
    globals of the module when the method runs. *)
Definition serialize (dec : pyobject) : result string :=
  match module_globals !! "Decimal" with
  | None => Raise (NameError "Decimal")
  | Some cls =>
      if isinstance dec cls
      then Ok (ob_str dec)
      else Raise (AssertionError (not_compatible dec))
  end.

End DecimalScalar.

(* ===================================================================== *)
(** * Fields generated from a field configuration *)
(* ===================================================================== *)

Definition missing_type_message : string :=
  "No graphene_type nor type parameter found on the field value.".

Definition guess_update_or_create (fields_dict : pyval) : string :=
  if R.has "id" fields_dict then UPDATE else CREATE.

(** The value [instantiate_graphene_type] selects as the type: the
    ['graphene_type'] entry, and the ['type'] entry when there is none. *)
Abbreviation selected_type field_config :=
  (R.prop_or (R.prop_or PNone "type" field_config) "graphene_type" field_config).

Section TypeGeneration.

(** What calling a class or a function does, as for [py_call]. *)
Variable call : pyval -> list pyval -> dict -> result pyval.

(** [input_type_class(field_config, crud, parent_type_classes)] builds the
    class of a nested input type from the ORM's description of the model.
    The functions below call back into it for nested object types and are
    stated for any behaviour of it. *)
Variable input_type_class : pyval -> string -> pyval -> result pyval.

(** [settings.TESTING] *)
Variable testing : bool.

Definition instantiate_graphene_type
    (field_config parent_type_classes : pyval) (crud : string) : result pyval :=
  let graphene_type := selected_type field_config in
  if negb (truthy graphene_type) then Raise (Exception missing_type_message)
  else
    let graphene_type_modifier := R.prop_or PNone "type_modifier" field_config in
    do is_object_type <-
      (if isclass graphene_type
       then issubclass graphene_type graphene.ObjectType
       else Ok false) ;
    do resolved_graphene_type <-
      (if is_object_type : bool then
         do fields <- R.prop "fields" field_config ;
         input_type_class
           (PDict [("graphene_type", graphene_type); ("fields", fields)])
           crud parent_type_classes
       else if R.isfunction graphene_type
               && Nat.eqb (parameter_count graphene_type) 0 then
         do _graphene_type <- py_call call graphene_type [] [] ;
         do fields <- R.prop "fields" field_config ;
         let _fields := call_if_lambda fields in
         input_type_class
           (PDict [("graphene_type", _graphene_type); ("fields", _fields)])
           crud parent_type_classes
       else if R.isfunction graphene_type then
         py_call call graphene_type [PStr crud] []
       else Ok graphene_type) ;
    if truthy graphene_type_modifier
    then py_call call graphene_type_modifier [resolved_graphene_type] []
    else py_call call resolved_graphene_type []
           [("required", R.prop_eq_or_in_or (PBool false) crud REQUIRE field_config)].

(** [crud] is [None] or a string; [crud or guess_update_or_create(...)]. *)
Definition input_type_fields
    (fields_dict : pyval) (crud : option string) (parent_type_classes : pyval)
  : result dict :=
  let crud :=
    match crud with
    | Some c => if truthy (PStr c) then c else guess_update_or_create fields_dict
    | None => guess_update_or_create fields_dict
    end in
  do allowed <-
    R.filter_dict
      (fun key_value =>
         do denied <- R.prop_eq_or (PBool false) crud DENY (snd key_value) ;
         Ok (R.not_func denied))
      (call_if_lambda fields_dict) ;
  R.map_dict
    (fun field_config =>
       instantiate_graphene_type field_config parent_type_classes crud)
    allowed.

Definition resolve_type (graphene_type field_config : pyval) : result pyval :=
  do typ <- R.prop "type" field_config ;
  do is_scalar <-
    (if isclass typ then issubclass typ graphene.Scalar else Ok false) ;
  if is_scalar : bool
  then py_call call typ [] []
  else do cls <- input_type_class field_config READ graphene_type ;
       py_call call cls [] [].

(** The test both read filters apply to a [(key, value)] pair. *)
Definition read_not_denied (key_value : string * pyval) : result pyval :=
  Ok (R.and_func (PBool true)
        (R.not_func (R.prop_eq_or_in READ DENY (snd key_value)))).

Definition allowed_read_fields (fields_dict graphene_type : pyval) : result dict :=
  do allowed <- R.filter_dict read_not_denied fields_dict ;
  R.map_dict (resolve_type graphene_type) allowed.

Definition allowed_filter_pairs (field_name : string) (graphene_type : pyval)
  : result (list (string * pyval)) :=
  do compliant <-
    R.filter_dict
      (fun keyvalue =>
         if negb (R.has "allowed_types" (snd keyvalue)) then Ok (PBool true)
         else
           do allowed_types <- py_getitem "allowed_types" (snd keyvalue) ;
           do types <- py_iter allowed_types ;
           do b <- any_issubclass graphene_type types ;
           Ok (PBool b))
      (PDict (FILTER_FIELDS testing)) ;
  R.map_with_obj_to_values
    (fun filter_str config =>
       do value <-
         (if R.has "type_modifier" config
          then do modifier <- py_getitem "type_modifier" config ;
               py_call call modifier [graphene_type] []
          else py_call call graphene_type [] []) ;
       Ok (field_name +:+ "_" +:+ filter_str, value))
    compliant.

Definition make_filters (pair : string * pyval) : result dict :=
  do filter_pairs <- allowed_filter_pairs (fst pair) (class_of (snd pair)) ;
  Ok (R.from_pairs (pair :: filter_pairs)).

Definition add_filters (argument_dict : dict) : result dict :=
  do dcts <- mapM make_filters (R.to_pairs argument_dict) ;
  Ok (R.merge_all dcts).

Definition allowed_filter_arguments (fields_dict graphene_type : pyval)
  : result dict :=
  do allowed <- R.filter_dict read_not_denied (call_if_lambda fields_dict) ;
  do argument_dict <- R.map_dict (resolve_type graphene_type) allowed ;
  add_filters argument_dict.

End TypeGeneration.

(* ===================================================================== *)
(** * Parameters for [update_or_create] *)
(* ===================================================================== *)

(** [related_object_id_if_django_type(fields_dict, key, value)]; the
    [except] clause logs and raises the same exception again. *)
Definition related_object_id_if_django_type
    (fields_dict : pyval) (key : string) (value : pyval) : result pyval :=
  do field_config <- py_getitem key fields_dict ;
  if truthy (R.prop_or (PBool false) "django_type" field_config)
  then do id <- R.prop "id" value ; Ok (PDict [(key +:+ "_id", id)])
  else Ok (PDict [(key, value)]).

Definition key_value_based_on_unique_or_foreign
    (key_to_modified_key_and_value : dict) (fields_dict : pyval) (key : string)
  : result pyval :=
  do modified_key_value <- py_getitem key (PDict key_to_modified_key_and_value) ;
  do unique <-
    R.contains "unique"
      (R.item_path_or (PList [PNone]) [key; "unique"] fields_dict) ;
  if unique : bool
  then Ok modified_key_value
  else Ok (PDict [("defaults", modified_key_value)]).

(** The dicts of a list of values; [merge] needs dicts. *)
Definition as_dicts (vs : list pyval) : result (list dict) :=
  mapM (fun v => match v with PDict d => Ok d | _ => Raise TypeError end) vs.

Definition input_type_parameters_for_update_or_create
    (fields_dict : pyval) (field_name_to_value : dict) : result pyval :=
  do key_to_modified_key_and_value <-
    R.map_with_obj
      (related_object_id_if_django_type fields_dict)
      (R.omit ["id"] field_name_to_value) ;
  if R.has "id" (PDict field_name_to_value) then
    do id <- R.getitem "id" (PDict field_name_to_value) ;
    do dcts <- as_dicts (R.values key_to_modified_key_and_value) ;
    Ok (PDict [("id", id); ("defaults", PDict (R.merge_all dcts))])
  else
    do key_values <-
      R.map_with_obj_to_values
        (fun key _ =>
           key_value_based_on_unique_or_foreign
             key_to_modified_key_and_value fields_dict key)
        field_name_to_value ;
    let to_insert := R.merge_deep_all key_values in
    R.when
      (fun d => match d with
                | PDict kvs => Nat.eqb (List.length (R.keys kvs)) 1
                | _ => false
                end)
      (R.prop "defaults")
      to_insert.

(** ** What the parameters are made of

    The description of the result that the properties below compare the
    function with: the pair a field contributes, whether it is marked
    unique, and where the pair is placed. *)

(** [(key_id, value.id)] for a field with a true ['django_type'], else
    [(key, value)]. *)
Definition modified_pair (fields_dict : pyval) (key : string) (value : pyval)
  : result (string * pyval) :=
  do field_config <- py_getitem key fields_dict ;
  if truthy (R.prop_or (PBool false) "django_type" field_config)
  then do id <- R.prop "id" value ; Ok (key +:+ "_id", id)
  else Ok (key, value).

(** ['unique'] is in the ['unique'] entry of the field. *)
Definition marked_unique (fields_dict : pyval) (key : string) : result bool :=
  R.contains "unique" (R.item_path_or (PList [PNone]) [key; "unique"] fields_dict).

(** The dict with one entry that a field contributes. *)
Abbreviation single pair := (PDict [pair]).

(** A pair with its unique mark: at top level, or under ['defaults']. *)
Definition place (item : (string * pyval) * bool) : pyval :=
  if snd item then PDict [fst item] else PDict [("defaults", PDict [fst item])].

Definition uniques (items : list ((string * pyval) * bool)) : dict :=
  map fst (List.filter snd items).

Definition others (items : list ((string * pyval) * bool)) : dict :=
  map fst (List.filter (fun item => negb (snd item)) items).

(* ===================================================================== *)
(** * ORM query expressions *)
(* ===================================================================== *)

(** A query expression: [Q(key=value)], or the negation [~q]. *)
Inductive Qexpr : Type :=
  | Q (key : string) (value : pyval)
  | Not (q : Qexpr).

(** [q.children[0]]: the [(key, value)] pair of a plain expression; negating
    a plain expression keeps its pair as the child, negating anything else
    keeps the expression itself, which has no item 0. *)
Definition first_child (q : Qexpr) : result (string * pyval) :=
  match q with
  | Q k v => Ok (k, v)
  | Not (Q k v) => Ok (k, v)
  | Not (Not _) => Raise TypeError
  end.

(** What [process_query_kwarg] reads of a model field. *)
Inductive field : Type :=
  | JSONField
  | ForeignKey (related_model : string)
  | OneToOneField (related_model : string)
  | ManyToManyField (related_model : string)
  | OtherField.

(** [model._meta]: the forward fields by name and the names of the related
    objects. *)
Record model := {
  _forward_fields_map : list (string * field);
  related_objects : list string
}.

Fixpoint forward_field (key : string) (fields : list (string * field)) : option field :=
  match fields with
  | [] => None
  | (k, f) :: fields' => if String.eqb k key then Some f else forward_field key fields'
  end.

Definition is_str (v : pyval) : bool := match v with PStr _ => true | _ => false end.
Definition is_list (v : pyval) : bool := match v with PList _ => true | _ => false end.

Definition _flatten_until (key value : pyval) : bool :=
  is_str key && negb (is_list value).

Section Queries.

(** [settings.TESTING] *)
Variable testing : bool.

(** The model class a relation names. *)
Variable models : string -> model.

(** [flatten_dct_until(dct, until_func, separator)] of
    [rescape_python_helpers]; the results below hold for any behaviour
    of it. *)
Variable flatten_dct_until : dict -> (pyval -> pyval -> bool) -> string -> dict.

Definition _key_matches_filter_field (key : string) : bool :=
  match R.last (PyStr.split "__" key) with
  | Some last_key => R.has last_key (PDict (FILTER_FIELDS testing))
  | None => false
  end.

(** [process_query_kwarg], with [process_query_value] written in place where
    it recurses on the entries of a related value. *)
Fixpoint process_query_kwarg (model_ : model) (key : string) (value : pyval)
    {struct value} : result (list Qexpr) :=
  if PyStr.endswith "__not" key then
    let k := PyStr.replace "__not" "" key in
    Ok [Not (Q k value)]
  else
    match forward_field key (_forward_fields_map model_) with
    | Some JSONField =>
        let flat := flatten_dct_until [(key, value)] _flatten_until "__" in
        let dct :=
          R.map_keys_with_obj
            (fun key value =>
               if is_dict_or_list value && negb (_key_matches_filter_field key)
               then PyStr.join "__" [key; "contains"]
               else key)
            flat in
        Ok (map (fun kv => Q (fst kv) (snd kv)) dct)
    | Some (ForeignKey related | OneToOneField related | ManyToManyField related) =>
        let related_model := models related in
        let process_query_value :=
          fix entries (kvs : dict) : result (list Qexpr) :=
            match kvs with
            | [] => Ok []
            | (k, inner_value) :: kvs' =>
                do qs <- process_query_kwarg related_model k inner_value ;
                do rest <- entries kvs' ;
                Ok (qs ++ rest)
            end in
        do q_expressions <-
          match value with
          | PList vs =>
              (fix each (vs : list pyval) : result (list Qexpr) :=
                 match vs with
                 | [] => Ok []
                 | v :: vs' =>
                     do qs <-
                       match v with
                       | PDict kvs => process_query_value kvs
                       | _ => Raise AttributeError
                       end ;
                     do rest <- each vs' ;
                     Ok (qs ++ rest)
                 end) vs
          | PDict kvs => process_query_value kvs
          | _ => Raise AttributeError
          end ;
        mapM
          (fun q_expression =>
             do child <- first_child q_expression ;
             Ok (Q (key +:+ "__" +:+ fst child) (snd child)))
          q_expressions
    | Some OtherField => Ok [Q key value]
    | None =>
        match R.head (PyStr.split "__" key) with
        | Some first =>
            if existsb (String.eqb first) (related_objects model_)
            then do items <- py_iter value ;
                 do ids <- mapM (R.prop "id") items ;
                 Ok [Q key (PList ids)]
            else Ok [Q key value]
        | None => Ok [Q key value]
        end
    end.

Definition process_query_value (model_ : model) (value_dict : pyval)
  : result (list Qexpr) :=
  do items <- py_items value_dict ;
  do qss <-
    R.map_with_obj_to_values
      (fun key inner_value => process_query_kwarg model_ key inner_value) items ;
  Ok (R.chain id qss).

Definition flatten_query_kwargs (model_ : model) (kwargs : dict)
  : result (list Qexpr) :=
  do qss <-
    R.map_with_obj
      (fun key value => process_query_kwarg model_ key value) kwargs ;
  Ok (R.chain id (R.values qss)).

(** The function given to [map_keys_deep] in [process_filter_kwargs]. *)
Definition filter_key (k : string) (v : pyval) : string :=
  if R.any_satisfy
       (fun string => PyStr.contains ("_" +:+ string) k)
       (R.keys (FILTER_FIELDS testing))
  then PyStr.replace "_" "__" k
  else k.

Definition process_filter_kwargs (model_ : model) (kwargs : dict)
  : result (list Qexpr) :=
  do kwrgs <- py_items (R.map_keys_deep filter_key (PDict kwargs)) ;
  flatten_query_kwargs model_ kwrgs.

End Queries.

(* ===================================================================== *)
(** * Safe deletion *)
(* ===================================================================== *)

(** What [delete_if_marked_for_delete] asks of a model class whose manager
    mixes in safe deletion, over a store of type [Store]:
    [objects_filter_delete id] is [model_cls.objects.filter(id=id).delete()],
    [deleted_only_get kwargs] is [model_cls.objects.deleted_only().get(kwargs)],
    [instance_truthy] is the truth value of an instance. *)
Class SafeDeleteModel (Store Instance : Type) := {
  objects_filter_delete : pyval -> Store -> result Store;
  deleted_only_get : dict -> Store -> result Instance;
  instance_truthy : Instance -> bool
}.

Section Deletion.

Context {Store Instance Upsert : Type} `{SafeDeleteModel Store Instance}.

(** [grapene_upsert_class] called with the one keyword argument
    [upsert_field_name]. *)
Variable grapene_upsert_class : string -> Instance -> Upsert.

(** The result and the store the call leaves. *)
Definition delete_if_marked_for_delete
    (upsert_field_name : string) (model_data : pyval) (store : Store)
  : result (option Upsert) * Store :=
  if R.all_satisfy
       (fun prop => truthy (R.prop_or (PBool false) prop model_data))
       ["id"; "deleted"]
  then
    match R.prop "id" model_data with
    | Raise e => (Raise e, store)
    | Ok id =>
        match objects_filter_delete id store with
        | Raise e => (Raise e, store)
        | Ok store' =>
            match model_data with
            | PDict d =>
                match deleted_only_get (R.pick ["id"] d) store' with
                | Raise e => (Raise e, store')
                | Ok instance =>
                    if negb (instance_truthy instance)
                    then (Raise (Exception "Failed to delete"), store')
                    else (Ok (Some (grapene_upsert_class upsert_field_name instance)),
                          store')
                end
            | _ => (Raise TypeError, store')
            end
        end
    end
  else (Ok None, store).

End Deletion.

(** A store with soft deletion: rows by id, each with the time of its
    deletion if it was deleted. *)
Module SoftDelete.

Record row := {
  row_id : Z;
  row_deleted : option Z
}.

Record store := {
  rows : gmap Z row;
  now : Z
}.

Definition delete_row (t : Z) (r : row) : row :=
  {| row_id := row_id r; row_deleted := Some t |}.

(** A table with one row. *)
Definition one_row_store (r : row) (t : Z) : store :=
  {| rows := {[ row_id r := r ]}; now := t |}.

(** The default manager sees the rows that are not deleted. *)
Definition filter_delete (id : pyval) (s : store) : result store :=
  match id with
  | PInt n =>
      match rows s !! n with
      | Some r =>
          match row_deleted r with
          | None => Ok {| rows := <[n := delete_row (now s) r]> (rows s); now := now s |}
          | Some _ => Ok s
          end
      | None => Ok s
      end
  | _ => Raise TypeError
  end.

(** [deleted_only()] sees the deleted rows; [get] raises when there is
    none. *)
Definition get_deleted (kwargs : dict) (s : store) : result row :=
  match Dict.get "id" kwargs with
  | Some (PInt n) =>
      match rows s !! n with
      | Some r =>
          match row_deleted r with
          | Some _ => Ok r
          | None => Raise DoesNotExist
          end
      | None => Raise DoesNotExist
      end
  | _ => Raise TypeError
  end.

#[global] Instance soft_delete_model : SafeDeleteModel store row := {
  objects_filter_delete := filter_delete;
  deleted_only_get := get_deleted;
  instance_truthy := fun _ => true
}.

End SoftDelete.

(* ===================================================================== *)
(** * Sequential queries *)
(* ===================================================================== *)

(** A manager or queryset: [call_method m name args] is
    [getattr(m, name)(args...)], [distinct m] is [m.distinct()]. *)
Class Queryable (M E : Type) := {
  call_method : M -> string -> list E -> M;
  distinct : M -> M
}.

Section Sequential.

Context {M E : Type} `{Queryable M E} `{EqDecision E}.

Definition _reduce (manager_method : string)
    (last : bool) (mgr_or_queryset : M) (q_expressions_set : list E) : M :=
  distinct
    (call_method mgr_or_queryset
       (if last then manager_method else "filter") q_expressions_set).

Definition query_sequentially
    (manager : M) (manager_method : string) (q_expressions_sets : list (list E))
  : M :=
  if Nat.eqb (List.length q_expressions_sets) 0
  then call_method manager manager_method []
  else
    match R.last q_expressions_sets with
    | None => manager
    | Some last =>
        fold_left
          (fun manager_or_query q_expressions =>
             _reduce manager_method
               (bool_decide (q_expressions = last))
               manager_or_query q_expressions)
          q_expressions_sets manager
    end.

(** The step of the fold, for a given last set, and the step it is for a
    set that is not the last: a filter. *)
Definition query_step (manager_method : string) (last : list E) (acc : M)
    (q_expressions : list E) : M :=
  _reduce manager_method (bool_decide (q_expressions = last)) acc q_expressions.

Definition filter_step (acc : M) (q_expressions : list E) : M :=
  distinct (call_method acc "filter" q_expressions).

End Sequential.

(** The calls made on a manager, written down as a term. *)
Inductive trace (E : Type) : Type :=
  | Manager
  | Called (target : trace E) (method : string) (args : list E)
  | Distinct (target : trace E).
Arguments Manager {E}.
Arguments Called {E} target method args.
Arguments Distinct {E} target.

#[export] Instance trace_queryable E : Queryable (trace E) E := {
  call_method := Called;
  distinct := Distinct
}.

(* ===================================================================== *)
(** * Graphene types of ORM fields *)
(* ===================================================================== *)

Definition graphene_Time := PClass "Time" ["Scalar"].
Definition graphene_UUID := PClass "UUID" ["Scalar"].
Definition GrapheneFeatureCollection := PClass "GrapheneFeatureCollection" [].

(** The [types] dict of [django_to_graphene_type], keyed by the field class. *)
Definition field_class_types : dict :=
  [ ("AutoField", graphene.Int);
    ("IntegerField", graphene.Int);
    ("BigAutoField", graphene.Int);
    ("CharField", graphene.String);
    ("BigIntegerField", graphene.Int);
    ("BinaryField", graphene.Int);
    ("BooleanField", graphene.Boolean);
    ("NullBooleanField", graphene.Boolean);
    ("DateField", graphene.Date);
    ("DateTimeField", graphene.DateTime);
    ("TimeField", graphene_Time);
    ("DecimalField", DecimalScalar.Decimal);
    ("FloatField", graphene.Float);
    ("EmailField", graphene.String);
    ("UUIDField", graphene_UUID);
    ("TextField", graphene.String);
    ("JSONField", graphene.JSONString);
    ("GeometryCollectionField", GrapheneFeatureCollection) ].

(** What [django_to_graphene_type] returns: the function
    [related_input_field_for_crud_type(field_dict_value, parent_type_classes)]
    that still expects the crud operation, or a type of the table. *)
Inductive resolved_field_type : Type :=
  | RelatedInputField (field_dict_value parent_type_classes : pyval)
  | GrapheneType (typ : pyval).

(** The loop of [django_to_graphene_type] on a class and the chain of first
    bases above it ([cls.__bases__[0]], then the first base of that, up to
    [object], which has none).  [None] is the [IndexError] of [__bases__[0]]
    on a class without bases. *)
Fixpoint first_mapped_class (cls : string) (first_bases : list string) : option pyval :=
  let matched := R.prop_or PNone cls (PDict field_class_types) in
  if truthy matched then Some matched
  else
    match first_bases with
    | [] => None
    | base :: first_bases' => first_mapped_class base first_bases'
    end.

Definition django_to_graphene_type
    (field_class : string) (first_bases : list string)
    (field_dict_value parent_type_classes : pyval) : option resolved_field_type :=
  if truthy
       (R.prop_or (PBool false) "graphene_type"
          (if truthy field_dict_value then field_dict_value else PDict []))
  then Some (RelatedInputField field_dict_value parent_type_classes)
  else
    match first_mapped_class field_class first_bases with
    | Some typ => Some (GrapheneType typ)
    | None => None
    end.

(* ===================================================================== *)
(** * Merging data fields *)
(* ===================================================================== *)

(** [R.merge_deep(dct1, dct2, merger)] with the merger both functions below
    pass: two dicts are merged key by key, recursively; anything else, lists
    included, is overridden by the second value. *)
Fixpoint merge_deep_override (base nxt : pyval) {struct nxt} : pyval :=
  match nxt with
  | PDict n =>
      match base with
      | PDict b =>
          PDict
            ((fix go (n : dict) (acc : dict) {struct n} : dict :=
                match n with
                | [] => acc
                | (k, v) :: n' =>
                    go n'
                      (match Dict.get k acc with
                       | None => Dict.set k v acc
                       | Some bv => Dict.set k (merge_deep_override bv v) acc
                       end)
                end) n b)
      | _ => nxt
      end
  | _ => nxt
  end.

Section DataFields.

(** [to_dict_deep] of [rescape_python_helpers], which turns the input
    objects of the GraphQL binding into dicts. *)
Variable to_dict_deep : pyval -> pyval.

(** [existing_instance_dict] is [existing_instance.__dict__]. *)
Definition merge_data_fields_on_update
    (data_fields : list string) (existing_instance_dict : dict) (data : dict)
  : result dict :=
  do new_data <-
    R.map_with_obj (fun k v => Ok (to_dict_deep v)) (R.pick data_fields data) ;
  do merged <-
    py_items
      (merge_deep_override
         (PDict (R.pick data_fields existing_instance_dict)) (PDict new_data)) ;
  Ok (R.merge (R.omit data_fields data) merged).

(** [objects_get_data id] is [django_model.objects.get(id=id).data]. *)
Variable objects_get_data : pyval -> result pyval.


End DataFields.

(* ===================================================================== *)
(** * Descriptions used by the properties of the generated fields *)
(* ===================================================================== *)

(** An entry of a field configuration is [value] or a list that contains
    [value]. *)
Definition is_or_contains (value : string) (entry : option pyval) : bool :=
  match entry with
  | Some v =>
      eq_str v value
      || match v with
         | PList xs => existsb (fun x => eq_str x value) xs
         | _ => false
         end
  | None => false
  end.

(** [c] is the class [d] or has it among its ancestors. *)
Definition subclass_of (c d : pyval) : bool :=
  match issubclass c d with Ok b => b | Raise _ => false end.

(** A filter configuration has no ['allowed_types'], or one of them is the
    type or an ancestor of it. *)
Definition filter_allowed_for (graphene_type : pyval) (config : pyval) : bool :=
  match config with
  | PDict c =>
      match Dict.get "allowed_types" c with
      | None => true
      | Some (PList ts) => existsb (subclass_of graphene_type) ts
      | Some _ => false
      end
  | _ => true
  end.

(** The argument of a filter: the ['type_modifier'] of the configuration
    called with the type, or the type called without arguments. *)
Definition filter_argument
    (call : pyval -> list pyval -> dict -> result pyval)
    (graphene_type : pyval) (config : pyval) : result pyval :=
  match config with
  | PDict c =>
      match Dict.get "type_modifier" c with
      | Some modifier => py_call call modifier [graphene_type] []
      | None => py_call call graphene_type [] []
      end
  | _ => py_call call graphene_type [] []
  end.

(** The shape of the configurations of the filter table: a dict whose
    ['allowed_types'], if any, is a list of classes and whose
    ['type_modifier'], if any, is a function. *)
Definition filter_config_shape (config : pyval) : bool :=
  match config with
  | PDict c =>
      match Dict.get "allowed_types" c with
      | None => true
      | Some (PList ts) => forallb isclass ts
      | Some _ => false
      end
      && match Dict.get "type_modifier" c with
         | None => true
         | Some (PFun _ _) => true
         | Some _ => false
         end
  | _ => false
  end.

(** The entries of the filter table allowed for a type, in table order. *)
Definition filters_allowed_for (testing : bool) (graphene_type : pyval)
  : list (string * pyval) :=
  List.filter (fun kv => filter_allowed_for graphene_type (snd kv))
    (FILTER_FIELDS testing).

(** The name of a filter of a field. *)
Definition filter_name (field_name suffix : string) : string :=
  field_name +:+ "_" +:+ suffix.

(** The filter pairs of a field of a given type: one for each entry of the
    table that is allowed for the type, made in table order; the first call
    that raises stops it. *)
Definition filter_pairs_for
    (call : pyval -> list pyval -> dict -> result pyval)
    (testing : bool) (field_name : string) (graphene_type : pyval)
  : result (list (string * pyval)) :=
  mapM (fun kv =>
          do value <- filter_argument call graphene_type (snd kv) ;
          Ok (filter_name field_name (fst kv), value))
    (filters_allowed_for testing graphene_type).


(* ===================================================================== *)
(** * Properties *)
(* ===================================================================== *)

(** ** Dicts *)

Section DictFacts.
Context {A : Type}.
Implicit Types (d : list (string * A)) (k : string) (v : A).

Lemma eqb_string_true k1 k2 : String.eqb k1 k2 = true <-> k1 = k2.
Proof. apply String.eqb_eq. Qed.

Lemma eqb_string_false k1 k2 : String.eqb k1 k2 = false <-> k1 <> k2.
Proof. apply String.eqb_neq. Qed.

Lemma get_None_keys k d : Dict.get k d = None <-> k ∉ Dict.keys d.
Proof.
  induction d as [|[k' v'] d IH]; simpl.
  - split; [intros _; apply not_elem_of_nil | done].
  - destruct (String.eqb k' k) eqn:E.
    + apply eqb_string_true in E as ->. split; [done|].
      intros Hn. exfalso. apply Hn. left.
    + apply eqb_string_false in E. rewrite IH, not_elem_of_cons.
      split; [intros Hn; split; [by apply not_eq_sym | done] | by intros [_ Hn]].
Qed.

Lemma has_keys k d : Dict.has k d = true <-> k ∈ Dict.keys d.
Proof.
  unfold Dict.has. destruct (Dict.get k d) eqn:E.
  - split; [intros _|done].
    destruct (decide (k ∈ Dict.keys d)) as [|Hn]; [done|].
    apply get_None_keys in Hn. congruence.
  - apply get_None_keys in E. split; [done | intros; contradiction].
Qed.

Lemma get_Some_elem k v d : Dict.get k d = Some v -> (k, v) ∈ d.
Proof.
  induction d as [|[k' v'] d IH]; simpl; [done|].
  destruct (String.eqb k' k) eqn:E.
  - apply eqb_string_true in E as ->. intros [= ->]. left.
  - intros Hg. right. auto.
Qed.

Lemma elem_keys k v d : (k, v) ∈ d -> k ∈ Dict.keys d.
Proof. intros Hin. apply list_elem_of_fmap. exists (k, v). done. Qed.

Lemma get_elem_NoDup k v d :
  NoDup (Dict.keys d) -> (k, v) ∈ d -> Dict.get k d = Some v.
Proof.
  induction d as [|[k' v'] d IH]; simpl; intros Hnd Hin.
  - by apply elem_of_nil in Hin.
  - apply NoDup_cons in Hnd as [Hk' Hnd].
    apply elem_of_cons in Hin as [[= <- <-]|Hin].
    + by rewrite String.eqb_refl.
    + destruct (String.eqb k' k) eqn:E; [|auto].
      apply eqb_string_true in E as ->. exfalso. apply Hk'. eapply elem_keys, Hin.
Qed.

Lemma set_fresh k v d : k ∉ Dict.keys d -> Dict.set k v d = d ++ [(k, v)].
Proof.
  induction d as [|[k' v'] d IH]; simpl; [done|].
  rewrite not_elem_of_cons. intros [Hne Hn].
  apply not_eq_sym, eqb_string_false in Hne. rewrite Hne. by rewrite IH.
Qed.

Lemma get_set_eq k v d : Dict.get k (Dict.set k v d) = Some v.
Proof.
  induction d as [|[k' v'] d IH]; simpl.
  - by rewrite String.eqb_refl.
  - destruct (String.eqb k' k) eqn:E; simpl; by rewrite E.
Qed.

Lemma get_set_ne k k' v d : k <> k' -> Dict.get k' (Dict.set k v d) = Dict.get k' d.
Proof.
  intros Hne. induction d as [|[k1 v1] d IH]; simpl.
  - apply eqb_string_false in Hne. by rewrite Hne.
  - destruct (String.eqb k1 k) eqn:E; simpl; [|by rewrite IH].
    apply eqb_string_true in E as ->. apply eqb_string_false in Hne. by rewrite Hne.
Qed.

Lemma keys_set k v d :
  Dict.keys (Dict.set k v d) =
  if Dict.has k d then Dict.keys d else Dict.keys d ++ [k].
Proof.
  unfold Dict.has. induction d as [|[k1 v1] d IH]; simpl; [done|].
  destruct (String.eqb k1 k) eqn:E; simpl; [done|].
  rewrite IH. by destruct (Dict.get k d).
Qed.

Lemma fold_set_fresh (l acc : list (string * A)) :
  NoDup (Dict.keys (acc ++ l)) ->
  fold_left (fun acc kv => Dict.set (fst kv) (snd kv) acc) l acc = acc ++ l.
Proof.
  revert acc. induction l as [|[k v] l IH]; intros acc Hnd; simpl.
  - by rewrite app_nil_r.
  - assert (Hk : k ∉ Dict.keys acc).
    { unfold Dict.keys in Hnd. rewrite fmap_app in Hnd.
      apply NoDup_app in Hnd as (_ & Hdisj & _).
      intros Hin. apply (Hdisj _ Hin). simpl. left. }
    rewrite set_fresh by done. rewrite IH.
    + by rewrite <- app_assoc.
    + by rewrite <- app_assoc.
Qed.

(** A list of pairs with distinct keys is its own dict. *)
Lemma of_pairs_NoDup (l : list (string * A)) :
  NoDup (Dict.keys l) -> Dict.of_pairs l = l.
Proof. intros Hnd. unfold Dict.of_pairs. by rewrite fold_set_fresh. Qed.

End DictFacts.

(** ** The result monad *)

Lemma bind_Ok {A B} (r : result A) (k : A -> result B) (b : B) :
  bind r k = Ok b -> exists a, r = Ok a /\ k a = Ok b.
Proof. destruct r; simpl; [eauto | discriminate]. Qed.

Lemma mapM_Ok_length {A B} (f : A -> result B) xs ys :
  mapM f xs = Ok ys -> List.length ys = List.length xs.
Proof.
  revert ys. induction xs as [|x xs IH]; simpl; intros ys Hm.
  - by injection Hm as <-.
  - apply bind_Ok in Hm as (y & _ & Hm). apply bind_Ok in Hm as (ys' & Hys & Hm).
    injection Hm as <-. simpl. f_equal. auto.
Qed.

Lemma mapM_Ok_elem {A B} (f : A -> result B) xs ys y :
  mapM f xs = Ok ys -> y ∈ ys -> exists x, x ∈ xs /\ f x = Ok y.
Proof.
  revert ys. induction xs as [|x xs IH]; simpl; intros ys Hm Hin.
  - injection Hm as <-. by apply elem_of_nil in Hin.
  - apply bind_Ok in Hm as (y' & Hy' & Hm). apply bind_Ok in Hm as (ys' & Hys & Hm).
    injection Hm as <-. apply elem_of_cons in Hin as [->|Hin].
    + exists x. split; [left | done].
    + destruct (IH _ Hys Hin) as (x' & Hx' & Hf). exists x'. split; [by right | done].
Qed.

Lemma filterM_Ok_elem {A} (f : A -> result bool) xs ys y :
  filterM f xs = Ok ys -> y ∈ ys -> y ∈ xs /\ f y = Ok true.
Proof.
  revert ys. induction xs as [|x xs IH]; simpl; intros ys Hm Hin.
  - injection Hm as <-. by apply elem_of_nil in Hin.
  - apply bind_Ok in Hm as (b & Hb & Hm). apply bind_Ok in Hm as (ys' & Hys & Hm).
    injection Hm as <-. destruct b.
    + apply elem_of_cons in Hin as [->|Hin].
      * split; [left | done].
      * destruct (IH _ Hys Hin). split; [by right | done].
    + destruct (IH _ Hys Hin). split; [by right | done].
Qed.

Lemma filterM_Ok_sublist {A} (f : A -> result bool) xs ys :
  filterM f xs = Ok ys -> sublist ys xs.
Proof.
  revert ys. induction xs as [|x xs IH]; simpl; intros ys Hm.
  - injection Hm as <-. constructor.
  - apply bind_Ok in Hm as (b & Hb & Hm). apply bind_Ok in Hm as (ys' & Hys & Hm).
    injection Hm as <-. destruct b; [apply sublist_skip | apply sublist_cons]; auto.
Qed.

(** ** Create or update *)

(** C8: for every fields dict, [guess_update_or_create] returns [UPDATE]
    exactly when the dict has the key ['id'], returns [CREATE] exactly when it
    has not, and returns nothing else. *)
Theorem guess_update_or_create_id (fields_dict : dict) :
  (guess_update_or_create (PDict fields_dict) = UPDATE
     <-> "id" ∈ Dict.keys fields_dict)
  /\ (guess_update_or_create (PDict fields_dict) = CREATE
     <-> "id" ∉ Dict.keys fields_dict)
  /\ (guess_update_or_create (PDict fields_dict) = UPDATE
     \/ guess_update_or_create (PDict fields_dict) = CREATE).
Proof.
  unfold guess_update_or_create; simpl.
  destruct (Dict.has "id" fields_dict) eqn:Hid.
  - apply has_keys in Hid. repeat split; auto; try discriminate.
    intros Hn; contradiction.
  - assert (Hn : "id" ∉ Dict.keys fields_dict).
    { intros Hin. apply has_keys in Hin. congruence. }
    repeat split; auto; try discriminate. intros Hin; contradiction.
Qed.

(** ** The filter table *)

Lemma with_not_versions_elem pairs key config :
  (key, config) ∈ with_not_versions pairs <->
  exists suffix, (suffix, config) ∈ pairs /\ (key = suffix \/ key = suffix +:+ "_not").
Proof.
  unfold with_not_versions, R.chain. rewrite list_elem_of_In, in_flat_map. split.
  - intros ([s c] & Hin & Hkc). apply list_elem_of_In in Hin. simpl in Hkc.
    destruct Hkc as [[= <- <-]|[[= <- <-]|[]]]; exists s; auto.
  - intros (s & Hin & Hk). exists (s, config). split; [by apply list_elem_of_In|].
    simpl. destruct Hk as [->| ->]; auto.
Qed.

Lemma with_not_versions_length pairs :
  List.length (with_not_versions pairs) = 2 * List.length pairs.
Proof.
  unfold with_not_versions, R.chain.
  induction pairs as [|p pairs IH]; simpl; [done|]. rewrite IH. lia.
Qed.

Lemma with_not_versions_NoDup testing :
  NoDup (Dict.keys (with_not_versions (base_filter_fields testing))).
Proof. destruct testing; apply (bool_decide_unpack _); vm_compute; exact I. Qed.

Lemma base_filter_fields_NoDup testing :
  NoDup (Dict.keys (base_filter_fields testing)).
Proof. destruct testing; apply (bool_decide_unpack _); vm_compute; exact I. Qed.

Lemma FILTER_FIELDS_pairs testing :
  FILTER_FIELDS testing = with_not_versions (base_filter_fields testing).
Proof.
  unfold FILTER_FIELDS, R.from_pairs, R.to_pairs.
  apply of_pairs_NoDup, with_not_versions_NoDup.
Qed.

(** C3: whichever table [settings.TESTING] selects, [FILTER_FIELDS] maps every
    suffix of the table and its [_not] companion to the configuration of the
    suffix, has no other key, and has twice as many entries as the table. *)
Theorem FILTER_FIELDS_not_versions (testing : bool) :
  (forall suffix config,
      Dict.get suffix (base_filter_fields testing) = Some config ->
      Dict.get suffix (FILTER_FIELDS testing) = Some config
      /\ Dict.get (suffix +:+ "_not") (FILTER_FIELDS testing) = Some config)
  /\ (forall key,
      key ∈ Dict.keys (FILTER_FIELDS testing) ->
      exists suffix,
        suffix ∈ Dict.keys (base_filter_fields testing)
        /\ (key = suffix \/ key = suffix +:+ "_not"))
  /\ NoDup (Dict.keys (FILTER_FIELDS testing))
  /\ List.length (FILTER_FIELDS testing)
     = 2 * List.length (base_filter_fields testing).
Proof.
  rewrite FILTER_FIELDS_pairs.
  pose proof (with_not_versions_NoDup testing) as Hnd.
  split; [|split; [|split]].
  - intros suffix config Hget. apply get_Some_elem in Hget.
    split; apply get_elem_NoDup; try done; apply with_not_versions_elem; eauto.
  - intros key Hkey. apply list_elem_of_fmap in Hkey as ([k c] & -> & Hin).
    apply with_not_versions_elem in Hin as (s & Hs & Hk).
    exists s. split; [by eapply elem_keys | done].
  - done.
  - apply with_not_versions_length.
Qed.

(** ** The Decimal scalar *)

Lemma module_globals_Decimal :
  DecimalScalar.module_globals !! "Decimal" = Some DecimalScalar.Decimal.
Proof. reflexivity. Qed.

(** C9: [Decimal.serialize(dec)] returns [str(dec)] when [dec] is an instance
    of the scalar class the module defines under the name [Decimal], which
    has replaced the imported [decimal.Decimal] in the module's globals, and
    raises [AssertionError] for every other object; every instance of
    [decimal.Decimal] is such an object. *)
Theorem Decimal_serialize_shadowed :
  DecimalScalar.module_globals !! "Decimal" = Some DecimalScalar.Decimal
  /\ DecimalScalar.Decimal <> DecimalScalar.decimal_Decimal
  /\ (forall dec,
        DecimalScalar.serialize dec =
        if DecimalScalar.isinstance dec DecimalScalar.Decimal
        then Ok (DecimalScalar.ob_str dec)
        else Raise (AssertionError (DecimalScalar.not_compatible dec)))
  /\ (forall dec,
        DecimalScalar.ob_type dec = DecimalScalar.decimal_Decimal ->
        DecimalScalar.serialize dec
        = Raise (AssertionError (DecimalScalar.not_compatible dec))).
Proof.
  split; [reflexivity|]. split; [discriminate|].
  assert (Hser : forall dec,
    DecimalScalar.serialize dec =
    if DecimalScalar.isinstance dec DecimalScalar.Decimal
    then Ok (DecimalScalar.ob_str dec)
    else Raise (AssertionError (DecimalScalar.not_compatible dec))).
  { intros dec. unfold DecimalScalar.serialize. rewrite module_globals_Decimal.
    by destruct (DecimalScalar.isinstance dec DecimalScalar.Decimal). }
  split; [exact Hser|].
  intros dec Hty. rewrite Hser.
  unfold DecimalScalar.isinstance, DecimalScalar.class_is. by rewrite Hty.
Qed.

(** ** Sequential queries *)

Section SequentialFacts.

Context {M E : Type} `{Queryable M E} `{EqDecision E}.
Implicit Types (sets : list (list E)) (last : list E).

Lemma last_snoc {A} (xs : list A) (x : A) : R.last (xs ++ [x]) = Some x.
Proof. unfold R.last. by rewrite rev_unit. Qed.

Lemma fold_filter_only manager_method last sets (m : M) :
  last ∉ sets ->
  fold_left (query_step manager_method last) sets m = fold_left filter_step sets m.
Proof.
  revert m. induction sets as [|qs sets IH]; intros m Hn; simpl; [done|].
  apply not_elem_of_cons in Hn as [Hne Hn].
  rewrite IH by done. f_equal. unfold query_step, _reduce, filter_step.
  rewrite bool_decide_eq_false_2; [done | by apply not_eq_sym].
Qed.

(** C10: with no set, [query_sequentially] calls [manager_method] with no
    argument.  With sets, it folds over them from the manager, calling
    [manager_method] for every set equal to the last one and ['filter'] for
    the others, each call followed by [distinct()]; when no earlier set
    equals the last, the earlier sets are filtered in order and only the
    last is queried with [manager_method]. *)
Theorem query_sequentially_fold (manager : M) (manager_method : string) :
  query_sequentially manager manager_method [] = call_method manager manager_method []
  /\ (forall sets last,
        query_sequentially manager manager_method (sets ++ [last])
        = fold_left (query_step manager_method last) (sets ++ [last]) manager)
  /\ (forall sets last,
        last ∉ sets ->
        query_sequentially manager manager_method (sets ++ [last])
        = distinct
            (call_method (fold_left filter_step sets manager) manager_method last)).
Proof.
  assert (Hfold : forall sets last,
    query_sequentially manager manager_method (sets ++ [last])
    = fold_left (query_step manager_method last) (sets ++ [last]) manager).
  { intros sets last. unfold query_sequentially.
    rewrite last_snoc, length_app. simpl.
    replace (List.length sets + 1 =? 0)%nat with false; [done|].
    symmetry. apply Nat.eqb_neq. lia. }
  split; [reflexivity|]. split; [exact Hfold|].
  intros sets last Hn. rewrite Hfold, fold_left_app. simpl.
  rewrite fold_filter_only by done.
  unfold query_step, _reduce. by rewrite bool_decide_eq_true_2.
Qed.

End SequentialFacts.

(** Three sets on a manager: two filters, then the method asked for. *)
Lemma query_sequentially_fold_witness :
  ([3%nat] ∉ [[1%nat]; [2%nat]])
  /\ query_sequentially (Manager : trace nat) "count" ([[1]; [2]] ++ [[3]])%nat
     = Distinct (Called (Distinct (Called (Distinct (Called Manager "filter" [1%nat]))
                                     "filter" [2%nat]))
                   "count" [3%nat]).
Proof.
  assert (Hn : [3%nat] ∉ [[1%nat]; [2%nat]]).
  { intros Hin. apply elem_of_cons in Hin as [Heq|Hin]; [discriminate|].
    apply elem_of_cons in Hin as [Heq|Hin]; [discriminate|].
    by apply elem_of_nil in Hin. }
  split; [exact Hn|].
  exact (proj2 (proj2 (query_sequentially_fold (Manager : trace nat) "count"))
           [[1%nat]; [2%nat]] [3%nat] Hn).
Defined.

(** An earlier set equal to the last one is queried with the method too. *)
Example query_sequentially_repeated_set :
  query_sequentially (Manager : trace nat) "get" [[1%nat]; [2%nat]; [1%nat]]
  = Distinct (Called (Distinct (Called (Distinct (Called Manager "get" [1%nat]))
                                  "filter" [2%nat]))
                "get" [1%nat]).
Proof. reflexivity. Qed.

(** ** Strings *)

Section StringFacts.
Implicit Types (s p sub : string) (c : ascii).

Lemma app_empty_r s : s +:+ "" = s.
Proof.
  induction s as [|c s IH]; [done|].
  change (String c (s +:+ "") = String c s). by f_equal.
Qed.

Lemma prefix_empty s : String.prefix "" s = true.
Proof. by destruct s. Qed.

Lemma prefix_cons c1 c2 s1 s2 :
  String.prefix (String c1 s1) (String c2 s2)
  = Ascii.eqb c1 c2 && String.prefix s1 s2.
Proof.
  simpl. destruct (ascii_dec c1 c2) as [->|Hne].
  - by rewrite Ascii.eqb_refl.
  - apply Ascii.eqb_neq in Hne. by rewrite Hne.
Qed.

Lemma prefix_app sub s : String.prefix sub (sub +:+ s) = true.
Proof.
  induction sub as [|c sub IH]; [apply prefix_empty|].
  change (String c sub +:+ s) with (String c (sub +:+ s)).
  by rewrite prefix_cons, Ascii.eqb_refl, IH.
Qed.

Lemma contains_prefix sub s :
  String.prefix sub s = true -> PyStr.contains sub s = true.
Proof.
  intros Hp. destruct s as [|c s]; cbn [PyStr.contains]; [done|].
  by rewrite Hp.
Qed.

Lemma contains_app sub p s : PyStr.contains sub (p +:+ sub +:+ s) = true.
Proof.
  induction p as [|c p IH].
  - apply contains_prefix. exact (prefix_app sub s).
  - change (String c p +:+ sub +:+ s) with (String c (p +:+ sub +:+ s)).
    cbn [PyStr.contains]. rewrite IH. apply orb_true_r.
Qed.

Lemma contains_tail c sub s :
  PyStr.contains (String c sub) s = true -> PyStr.contains sub s = true.
Proof.
  induction s as [|a s IH]; cbn [PyStr.contains].
  - done.
  - rewrite prefix_cons. intros Hor.
    apply orb_true_iff in Hor as [Hp|Hc].
    + apply andb_true_iff in Hp as [_ Hp]. apply orb_true_iff. right.
      by apply contains_prefix.
    + apply orb_true_iff. right. auto.
Qed.

Lemma replace_underscores s :
  PyStr.replace "_" "__" s = PyStr.double_underscores s.
Proof.
  unfold PyStr.replace. induction s as [|c s IH]; [done|].
  cbn [PyStr.replace_from PyStr.double_underscores].
  rewrite prefix_cons, prefix_empty, andb_true_r.
  rewrite (Ascii.eqb_sym "_" c).
  destruct (Ascii.eqb c "_") eqn:E.
  - cbn. by rewrite IH.
  - by rewrite IH.
Qed.

Lemma double_underscores_app s1 s2 :
  PyStr.double_underscores (s1 +:+ s2)
  = PyStr.double_underscores s1 +:+ PyStr.double_underscores s2.
Proof.
  induction s1 as [|c s1 IH]; [done|].
  change (String c s1 +:+ s2) with (String c (s1 +:+ s2)).
  cbn [PyStr.double_underscores]. rewrite IH. by destruct (Ascii.eqb c "_").
Qed.

Lemma double_underscores_none s :
  PyStr.contains "_" s = false -> PyStr.double_underscores s = s.
Proof.
  induction s as [|c s IH]; [done|].
  cbn [PyStr.contains]. rewrite prefix_cons, prefix_empty, andb_true_r.
  intros Hor. apply orb_false_iff in Hor as [Hc Hs].
  cbn [PyStr.double_underscores]. rewrite (Ascii.eqb_sym c "_"), Hc.
  by rewrite IH.
Qed.

Lemma endswith_app suffix k : PyStr.endswith suffix (k +:+ suffix) = true.
Proof.
  induction k as [|c k IH].
  - change ("" +:+ suffix) with suffix.
    destruct suffix; cbn [PyStr.endswith]; by rewrite String.eqb_refl.
  - change (String c k +:+ suffix) with (String c (k +:+ suffix)).
    cbn [PyStr.endswith]. rewrite IH. apply orb_true_r.
Qed.

Lemma prefix_length p s : String.prefix p s = true -> String.length p <= String.length s.
Proof.
  revert s. induction p as [|c p IH]; intros s; [simpl; lia|].
  destruct s as [|a s]; [done|]. rewrite prefix_cons.
  intros Hp. apply andb_true_iff in Hp as [_ Hp]. apply IH in Hp. simpl. lia.
Qed.

(** A prefix of [a +:+ b] no longer than [a] is a prefix of [a]. *)
Lemma prefix_app_short p a b :
  String.prefix p (a +:+ b) = true -> String.length p <= String.length a ->
  String.prefix p a = true.
Proof.
  revert a. induction p as [|c p IH]; intros a Hp Hlen; [apply prefix_empty|].
  destruct a as [|x a]; [simpl in Hlen; lia|].
  change (String x a +:+ b) with (String x (a +:+ b)) in Hp.
  rewrite prefix_cons in Hp |- *. apply andb_true_iff in Hp as [Hc Hp].
  rewrite Hc. simpl in Hlen. apply IH; [done | lia].
Qed.

Lemma length_app_string a b :
  String.length (a +:+ b) = String.length a + String.length b.
Proof.
  induction a as [|c a IH]; [done|].
  change (String c a +:+ b) with (String c (a +:+ b)). simpl. by rewrite IH.
Qed.

Lemma app_assoc_string a b r : (a +:+ b) +:+ r = a +:+ b +:+ r.
Proof.
  induction a as [|x a IH]; [done|].
  change ((String x a +:+ b) +:+ r) with (String x ((a +:+ b) +:+ r)).
  change (String x a +:+ b +:+ r) with (String x (a +:+ b +:+ r)). by rewrite IH.
Qed.

Lemma replace_from_skip_all old new s :
  PyStr.replace_from old new (String.length s) s = "".
Proof. induction s as [|c s IH]; [done|]. exact IH. Qed.

(** When ['__not'] occurs in a key only as its last five characters,
    removing every occurrence removes that suffix. *)
Lemma replace_not_suffix k :
  PyStr.contains "__not" (k +:+ "__no") = false ->
  PyStr.replace "__not" "" (k +:+ "__not") = k.
Proof.
  unfold PyStr.replace. induction k as [|c k IH]; intros Hno; [done|].
  change (String c k +:+ "__no") with (String c (k +:+ "__no")) in Hno.
  change (String c k +:+ "__not") with (String c (k +:+ "__not")).
  cbn [PyStr.contains] in Hno. apply orb_false_iff in Hno as [Hp Hno].
  cbn [PyStr.replace_from].
  destruct (String.prefix "__not" (String c (k +:+ "__not"))) eqn:Hpre.
  - exfalso.
    assert (Hsplit : String c (k +:+ "__not") = String c (k +:+ "__no") +:+ "t").
    { change (String c (k +:+ "__no") +:+ "t") with (String c ((k +:+ "__no") +:+ "t")).
      by rewrite app_assoc_string. }
    rewrite Hsplit in Hpre. apply prefix_app_short in Hpre.
    + congruence.
    + simpl. rewrite length_app_string. simpl. lia.
  - by rewrite IH.
Qed.

End StringFacts.

(** ** Query keywords *)

Section QueryFacts.

Variable testing : bool.
Variable models : string -> model.
Variable flatten_dct_until : dict -> (pyval -> pyval -> bool) -> string -> dict.

Lemma process_query_kwarg_not model_ key value :
  PyStr.endswith "__not" key = true ->
  process_query_kwarg testing models flatten_dct_until model_ key value
  = Ok [Not (Q (PyStr.replace "__not" "" key) value)].
Proof. intros Hend. destruct value; simpl; by rewrite Hend. Qed.

(** X10: where ['__not'] occurs only at the end of the key, the result is
    the one negated expression on the key without that suffix. *)
Lemma process_query_kwarg_not_single_occurrence model_ k value :
  PyStr.contains "__not" (k +:+ "__no") = false ->
  process_query_kwarg testing models flatten_dct_until model_ (k +:+ "__not") value
  = Ok [Not (Q k value)].
Proof.
  intros Hno. rewrite process_query_kwarg_not by apply endswith_app.
  by rewrite replace_not_suffix.
Qed.

(** C4 (the code departs from it): a key that ends with ['__not'] gives one
    negated expression, but its key is the given key with every occurrence
    of ['__not'] removed, not only the suffix: for
    ['user__notes__contains__not'] the expression is on
    ['useres__contains'] and not on ['user__notes__contains']. *)
Theorem process_query_kwarg_not_removes_every_occurrence model_ value :
  PyStr.endswith "__not" "user__notes__contains__not" = true
  /\ process_query_kwarg testing models flatten_dct_until model_
       "user__notes__contains__not" value
     = Ok [Not (Q "useres__contains" value)]
  /\ process_query_kwarg testing models flatten_dct_until model_
       "user__notes__contains__not" value
     <> Ok [Not (Q "user__notes__contains" value)].
Proof.
  split; [reflexivity|].
  rewrite process_query_kwarg_not by reflexivity.
  split; [reflexivity | discriminate].
Qed.

Lemma filter_key_matching k v :
  (exists suffix,
      suffix ∈ Dict.keys (FILTER_FIELDS testing)
      /\ PyStr.contains ("_" +:+ suffix) k = true) ->
  filter_key testing k v = PyStr.double_underscores k.
Proof.
  intros (suffix & Hin & Hc). unfold filter_key, R.any_satisfy, R.keys.
  replace (existsb _ _) with true; [apply replace_underscores|].
  symmetry. apply existsb_exists. exists suffix.
  split; [by apply list_elem_of_In | done].
Qed.

Lemma filter_key_other k v :
  (forall suffix,
      suffix ∈ Dict.keys (FILTER_FIELDS testing) ->
      PyStr.contains suffix k = false) ->
  filter_key testing k v = k.
Proof.
  intros Hno. unfold filter_key, R.any_satisfy, R.keys.
  destruct (existsb _ _) eqn:E; [|done].
  apply existsb_exists in E as (suffix & Hin & Hc).
  apply list_elem_of_In in Hin. apply contains_tail in Hc.
  rewrite Hno in Hc by done. discriminate.
Qed.

End QueryFacts.

(** ** Keys of built dicts *)

Section KeysFacts.
Context {A : Type}.
Implicit Types (d l : list (string * A)) (k : string).

Lemma elem_keys_fold_set k l d :
  k ∈ Dict.keys (fold_left (fun acc kv => Dict.set (fst kv) (snd kv) acc) l d)
  <-> k ∈ Dict.keys d \/ k ∈ Dict.keys l.
Proof.
  revert d. induction l as [|[k1 v1] l IH]; intros d; simpl.
  - split; [by left | intros [Hd|Hl]; [done | by apply elem_of_nil in Hl]].
  - rewrite IH, keys_set, elem_of_cons.
    destruct (Dict.has k1 d) eqn:Hhas.
    + apply has_keys in Hhas. split; [tauto|].
      intros [Hd|[->|Hl]]; tauto.
    + rewrite elem_of_app, list_elem_of_singleton. tauto.
Qed.

Lemma elem_keys_of_pairs k l : k ∈ Dict.keys (Dict.of_pairs l) <-> k ∈ Dict.keys l.
Proof.
  unfold Dict.of_pairs. rewrite elem_keys_fold_set. split; [|by right].
  intros [Hn|Hl]; [by apply elem_of_nil in Hn | done].
Qed.

Lemma elem_keys_update k d1 d2 :
  k ∈ Dict.keys (Dict.update d1 d2) <-> k ∈ Dict.keys d1 \/ k ∈ Dict.keys d2.
Proof. apply elem_keys_fold_set. Qed.

End KeysFacts.

Lemma map_keys_deep_dict f (kwargs : dict) :
  R.map_keys_deep f (PDict kwargs)
  = PDict (Dict.of_pairs
             (map (fun kv => (f (fst kv) (snd kv), R.map_keys_deep f (snd kv))) kwargs)).
Proof.
  simpl. do 2 f_equal.
  induction kwargs as [|[k v] kwargs IH]; [done|]. simpl. by rewrite IH.
Qed.

(** The conversion of the keys: a key that contains an underscore followed
    by a key of [FILTER_FIELDS] has every one of its underscores doubled, so
    a key made of a prefix and a suffix without underscores gets exactly its
    separator doubled; a key that contains no key of [FILTER_FIELDS] is left
    as it is; and [process_filter_kwargs] returns what [flatten_query_kwargs]
    returns on the dict with the rewritten keys. *)
Lemma filter_key_conversion
    (testing : bool) (models : string -> model)
    (flatten_dct_until : dict -> (pyval -> pyval -> bool) -> string -> dict) :
  (forall k v suffix,
      suffix ∈ Dict.keys (FILTER_FIELDS testing) ->
      PyStr.contains ("_" +:+ suffix) k = true ->
      filter_key testing k v = PyStr.double_underscores k)
  /\ (forall p suffix v,
      suffix ∈ Dict.keys (FILTER_FIELDS testing) ->
      PyStr.contains "_" p = false ->
      PyStr.contains "_" suffix = false ->
      filter_key testing (p +:+ "_" +:+ suffix) v = p +:+ "__" +:+ suffix)
  /\ (forall k v,
      (forall suffix,
          suffix ∈ Dict.keys (FILTER_FIELDS testing) ->
          PyStr.contains suffix k = false) ->
      filter_key testing k v = k)
  /\ (forall model_ kwargs,
      exists converted,
        R.map_keys_deep (filter_key testing) (PDict kwargs) = PDict converted
        /\ (forall k', k' ∈ Dict.keys converted <->
                       exists k v, (k, v) ∈ kwargs /\ k' = filter_key testing k v)
        /\ process_filter_kwargs testing models flatten_dct_until model_ kwargs
           = flatten_query_kwargs testing models flatten_dct_until model_ converted).
Proof.
  split; [|split; [|split]].
  - intros k v suffix Hin Hc. apply filter_key_matching. eauto.
  - intros p suffix v Hin Hp Hs.
    rewrite filter_key_matching.
    + rewrite !double_underscores_app.
      by rewrite (double_underscores_none p), (double_underscores_none suffix).
    + exists suffix. split; [done|].
      assert (Heq : p +:+ "_" +:+ suffix = p +:+ ("_" +:+ suffix) +:+ "")
        by (by rewrite app_empty_r).
      rewrite Heq. apply contains_app.
  - intros k v Hno. by apply filter_key_other.
  - intros model_ kwargs. eexists. split; [apply map_keys_deep_dict|]. split.
    + intros k'. rewrite elem_keys_of_pairs. unfold Dict.keys.
      rewrite <- list_fmap_compose. rewrite list_elem_of_fmap. split.
      * intros ([k v] & -> & Hin). exists k, v. done.
      * intros (k & v & Hin & ->). exists (k, v). done.
    + unfold process_filter_kwargs. by rewrite map_keys_deep_dict.
Qed.

Lemma double_underscores_length s :
  String.length s <= String.length (PyStr.double_underscores s).
Proof.
  induction s as [|c s IH]; [done|]. cbn [PyStr.double_underscores].
  destruct (Ascii.eqb c "_"); simpl; lia.
Qed.

Lemma double_underscores_longer s :
  PyStr.contains "_" s = true ->
  String.length s < String.length (PyStr.double_underscores s).
Proof.
  induction s as [|c s IH]; [done|].
  cbn [PyStr.contains PyStr.double_underscores].
  rewrite prefix_cons, prefix_empty, andb_true_r, (Ascii.eqb_sym "_" c).
  pose proof (double_underscores_length s) as Hle.
  destruct (Ascii.eqb c "_"); simpl; [lia|].
  intros Hc. apply IH in Hc. lia.
Qed.

(** C5 (the code departs from it): a key that contains an underscore followed
    by a key of [FILTER_FIELDS] is not rewritten by doubling the separator
    before the suffix: every underscore of the key is doubled.
    ['created_at_gt'] becomes ['created__at__gt'] and not ['created_at__gt'],
    ['data_has_key'] becomes ['data__has__key'] and not ['data__has_key'],
    and the expressions are built from the dict with these keys.  Whenever
    the part before the suffix has an underscore of its own, the key is not
    that part, two underscores and the suffix. *)
Theorem process_filter_kwargs_doubles_every_underscore
    (models : string -> model)
    (flatten_dct_until : dict -> (pyval -> pyval -> bool) -> string -> dict)
    (model_ : model) (value : pyval) :
  ("gt" ∈ Dict.keys (FILTER_FIELDS false)
   /\ "has_key" ∈ Dict.keys (FILTER_FIELDS false))
  /\ (filter_key false "created_at_gt" value = "created__at__gt"
      /\ filter_key false "created_at_gt" value <> "created_at" +:+ "__" +:+ "gt")
  /\ (filter_key false "data_has_key" value = "data__has__key"
      /\ filter_key false "data_has_key" value <> "data" +:+ "__" +:+ "has_key")
  /\ process_filter_kwargs false models flatten_dct_until model_
       [("created_at_gt", value)]
     = flatten_query_kwargs false models flatten_dct_until model_
         [("created__at__gt", R.map_keys_deep (filter_key false) value)]
  /\ (forall testing p suffix v,
        suffix ∈ Dict.keys (FILTER_FIELDS testing) ->
        PyStr.contains "_" p = true ->
        filter_key testing (p +:+ "_" +:+ suffix) v
        = PyStr.double_underscores p +:+ "__" +:+ PyStr.double_underscores suffix
        /\ filter_key testing (p +:+ "_" +:+ suffix) v <> p +:+ "__" +:+ suffix).
Proof.
  split; [split; apply (bool_decide_unpack _); vm_compute; exact I|].
  split; [split; [reflexivity | discriminate]|].
  split; [split; [reflexivity | discriminate]|].
  split.
  - unfold process_filter_kwargs. rewrite map_keys_deep_dict. reflexivity.
  - intros testing p suffix v Hin Hp.
    assert (Hkey : filter_key testing (p +:+ "_" +:+ suffix) v
                   = PyStr.double_underscores p +:+ "__"
                     +:+ PyStr.double_underscores suffix).
    { rewrite filter_key_matching.
      - by rewrite !double_underscores_app.
      - exists suffix. split; [done|].
        assert (Heq : p +:+ "_" +:+ suffix = p +:+ ("_" +:+ suffix) +:+ "")
          by (by rewrite app_empty_r).
        rewrite Heq. apply contains_app. }
    split; [exact Hkey|]. rewrite Hkey. intros Heq.
    apply (f_equal String.length) in Heq. rewrite !length_app_string in Heq.
    pose proof (double_underscores_longer p Hp).
    pose proof (double_underscores_length suffix). lia.
Qed.

(** With the table of the tests: ['id_contains'] becomes ['id__contains'],
    and ['user_name_contains'] becomes ['user__name__contains']. *)
Example process_filter_kwargs_contains :
  let no_model := {| _forward_fields_map := []; related_objects := [] |} in
  process_filter_kwargs true (fun _ => no_model) (fun d _ _ => d) no_model
    [("id_contains", PStr "7")]
  = Ok [Q "id__contains" (PStr "7")]
  /\ process_filter_kwargs true (fun _ => no_model) (fun d _ _ => d) no_model
       [("user_name_contains", PStr "jo")]
     = Ok [Q "user__name__contains" (PStr "jo")].
Proof. split; reflexivity. Qed.

(** With the full table a suffix that has an underscore of its own is
    rewritten as well. *)
Example filter_key_week_day :
  filter_key false "created_week_day" PNone = "created__week__day".
Proof. reflexivity. Qed.

(** ** The type of a field *)





Section TypeFacts.

Variable call : pyval -> list pyval -> dict -> result pyval.
Variable input_type_class : pyval -> string -> pyval -> result pyval.







End TypeFacts.





(** ** Safe deletion *)

Section DeletionFacts.

Context {Store Instance Upsert : Type} `{SafeDeleteModel Store Instance}.
Variable grapene_upsert_class : string -> Instance -> Upsert.

Lemma prop_or_truthy_dict key x :
  truthy (R.prop_or (PBool false) key x) = true ->
  exists d v, x = PDict d /\ Dict.get key d = Some v /\ truthy v = true.
Proof.
  destruct x; simpl; try discriminate.
  destruct (Dict.get key kvs) as [v|] eqn:Hg; [|discriminate].
  destruct (is_none v) eqn:Hn; [discriminate|]. eauto.
Qed.

(** C7: [delete_if_marked_for_delete] returns [None] and leaves the store as
    it is unless [model_data] has a true ['id'] and a true ['deleted'] entry.
    When it has both, the rows with that id are deleted; then, if the
    instance is found by the deleted-only manager, the result is the upsert
    class called with it, and if it is not found (the lookup raises, or gives
    a false value) the call raises. *)
Theorem delete_if_marked_for_delete_marked
    (upsert_field_name : string) (model_data : pyval) (store : Store) :
  let marked :=
    truthy (R.prop_or (PBool false) "id" model_data)
    && truthy (R.prop_or (PBool false) "deleted" model_data) in
  let outcome :=
    delete_if_marked_for_delete grapene_upsert_class upsert_field_name model_data store in
  (marked = false -> outcome = (Ok None, store))
  /\ (marked = true ->
      exists d id,
        model_data = PDict d /\ Dict.get "id" d = Some id /\ truthy id = true
        /\ match objects_filter_delete id store with
           | Raise e => outcome = (Raise e, store)
           | Ok store' =>
               match deleted_only_get (R.pick ["id"] d) store' with
               | Raise e => outcome = (Raise e, store')
               | Ok instance =>
                   if instance_truthy instance
                   then outcome
                        = (Ok (Some (grapene_upsert_class upsert_field_name instance)),
                           store')
                   else exists e, outcome = (Raise e, store')
               end
           end).
Proof.
  intros marked outcome. subst marked outcome.
  unfold delete_if_marked_for_delete, R.all_satisfy. cbn [forallb].
  rewrite andb_true_r.
  split.
  - intros ->. reflexivity.
  - intros Hm. rewrite Hm. apply andb_true_iff in Hm as [Hid _].
    apply prop_or_truthy_dict in Hid as (d & id & -> & Hget & Hid).
    exists d, id. repeat split; try done.
    unfold R.prop. rewrite Hget.
    destruct (objects_filter_delete id store) as [store'|e]; [|done].
    destruct (deleted_only_get (R.pick ["id"] d) store') as [instance|e]; [|done].
    destruct (instance_truthy instance); simpl; eauto.
Qed.

End DeletionFacts.

(** A live row marked for deletion: it is soft-deleted and returned. *)
Lemma delete_if_marked_for_delete_marked_witness :
  let live := {| SoftDelete.row_id := 7; SoftDelete.row_deleted := None |} in
  let store := SoftDelete.one_row_store live 100 in
  let model_data := PDict [("id", PInt 7); ("deleted", PStr "2019-01-09")] in
  truthy (R.prop_or (PBool false) "id" model_data)
  && truthy (R.prop_or (PBool false) "deleted" model_data) = true
  /\ exists d id,
      model_data = PDict d /\ Dict.get "id" d = Some id /\ truthy id = true
      /\ match objects_filter_delete id store with
         | Raise e =>
             delete_if_marked_for_delete (fun name instance => (name, instance))
               "region" model_data store = (Raise e, store)
         | Ok store' =>
             match deleted_only_get (R.pick ["id"] d) store' with
             | Raise e =>
                 delete_if_marked_for_delete (fun name instance => (name, instance))
                   "region" model_data store = (Raise e, store')
             | Ok instance =>
                 if instance_truthy instance
                 then delete_if_marked_for_delete (fun name instance => (name, instance))
                        "region" model_data store
                      = (Ok (Some ("region", instance)), store')
                 else exists e,
                     delete_if_marked_for_delete (fun name instance => (name, instance))
                       "region" model_data store = (Raise e, store')
             end
         end.
Proof.
  intros live store model_data. split; [reflexivity|].
  exact (proj2 (delete_if_marked_for_delete_marked
                  (fun name instance => (name, instance)) "region" model_data store)
           eq_refl).
Defined.

(** On the soft-deleting store the row is marked and given back; a missing
    row makes the lookup raise; without ['deleted'] nothing happens. *)
Example delete_if_marked_for_delete_soft :
  let live := {| SoftDelete.row_id := 7; SoftDelete.row_deleted := None |} in
  let store := SoftDelete.one_row_store live 100 in
  delete_if_marked_for_delete (fun name instance => (name, instance)) "region"
    (PDict [("id", PInt 7); ("deleted", PStr "2019-01-09")]) store
  = (Ok (Some ("region", SoftDelete.delete_row 100 live)),
     SoftDelete.one_row_store (SoftDelete.delete_row 100 live) 100)
  /\ delete_if_marked_for_delete (fun name instance => (name, instance)) "region"
       (PDict [("id", PInt 8); ("deleted", PStr "2019-01-09")]) store
     = (Raise DoesNotExist, store)
  /\ delete_if_marked_for_delete (fun name instance => (name, instance)) "region"
       (PDict [("id", PInt 7); ("deleted", PNone)]) store
     = (Ok None, store).
Proof. intros live store. repeat split; vm_compute; reflexivity. Qed.

(** ** Fields kept by the filters *)

Lemma filter_dict_elem f (d r : dict) k :
  R.filter_dict f (PDict d) = Ok r -> k ∈ Dict.keys r ->
  exists v b, (k, v) ∈ d /\ f (k, v) = Ok b /\ truthy b = true.
Proof.
  unfold R.filter_dict. simpl. intros Hf Hk.
  apply bind_Ok in Hf as (kept & Hkept & [= <-]).
  apply (proj1 (elem_keys_of_pairs _ _)) in Hk.
  apply list_elem_of_fmap in Hk as ([k' v] & -> & Hin).
  destruct (filterM_Ok_elem _ _ _ _ Hkept Hin) as [Hd Hb].
  apply bind_Ok in Hb as (b & Hb & [= Ht]). exists v, b. done.
Qed.

Lemma map_with_obj_keys {A} (f : string -> pyval -> result A) (d : dict) r k :
  R.map_with_obj f d = Ok r -> k ∈ Dict.keys r -> k ∈ Dict.keys d.
Proof.
  unfold R.map_with_obj. intros Hm Hk.
  apply bind_Ok in Hm as (pairs & Hpairs & [= <-]).
  apply (proj1 (elem_keys_of_pairs _ _)) in Hk.
  apply list_elem_of_fmap in Hk as ([k' y] & -> & Hin).
  destruct (mapM_Ok_elem _ _ _ _ Hpairs Hin) as ([k1 v1] & Hd & Hb).
  apply bind_Ok in Hb as (y' & _ & [= <- <-]). by eapply elem_keys.
Qed.

Lemma merge_all_keys (ds : list dict) k :
  k ∈ Dict.keys (R.merge_all ds) -> exists d, d ∈ ds /\ k ∈ Dict.keys d.
Proof.
  unfold R.merge_all.
  assert (Hgen : forall acc : dict,
    k ∈ Dict.keys (fold_left R.merge ds acc) ->
    k ∈ Dict.keys acc \/ exists d, d ∈ ds /\ k ∈ Dict.keys d).
  { induction ds as [|d ds IH]; intros acc Hk; simpl in Hk; [by left|].
    destruct (IH _ Hk) as [Hacc|(d' & Hd' & Hk')].
    - apply (proj1 (elem_keys_update _ _ _)) in Hacc as [Hacc|Hd]; [by left|].
      right. exists d. split; [left | done].
    - right. exists d'. split; [by right | done]. }
  intros Hk. destruct (Hgen [] Hk) as [Hnil|Hex]; [|done].
  by apply elem_of_nil in Hnil.
Qed.

Lemma read_denied_entry (cfg : dict) r :
  Dict.get READ cfg = Some r ->
  (r = PStr DENY \/ exists xs, r = PList xs /\ PStr DENY ∈ xs) ->
  R.prop_eq_or_in READ DENY (PDict cfg) = PBool true.
Proof.
  intros Hget Hr. unfold R.prop_eq_or_in, R.prop_eq_or_in_or. rewrite Hget.
  destruct Hr as [->|(xs & -> & Hin)]; [done|].
  simpl. f_equal. apply existsb_exists. exists (PStr DENY).
  split; [by apply list_elem_of_In | done].
Qed.

Section GenerationFacts.

Variable call : pyval -> list pyval -> dict -> result pyval.
Variable input_type_class : pyval -> string -> pyval -> result pyval.
Variable testing : bool.

Lemma input_type_fields_omits_denied
    fields_dict (fields : dict) crud parents generated name (cfg : dict) :
  call_if_lambda fields_dict = PDict fields ->
  NoDup (Dict.keys fields) ->
  crud <> "" ->
  input_type_fields call input_type_class fields_dict (Some crud) parents = Ok generated ->
  Dict.get name fields = Some (PDict cfg) ->
  Dict.get crud cfg = Some (PStr DENY) ->
  name ∉ Dict.keys generated.
Proof.
  intros Hfields Hnd Hcrud Hgen Hname Hdeny Hin.
  unfold input_type_fields in Hgen.
  assert (Htruthy : truthy (PStr crud) = true).
  { simpl. apply eqb_string_false in Hcrud. by rewrite Hcrud. }
  rewrite Htruthy, Hfields in Hgen.
  apply bind_Ok in Hgen as (allowed & Hallowed & Hmap).
  apply (map_with_obj_keys _ _ _ name Hmap) in Hin.
  destruct (filter_dict_elem _ _ _ _ Hallowed Hin) as (v & b & Hv & Hb & Ht).
  rewrite (get_elem_NoDup _ _ _ Hnd Hv) in Hname. injection Hname as ->.
  unfold R.prop_eq_or in Hb. simpl in Hb. unfold Dict.has in Hb.
  rewrite Hdeny in Hb. simpl in Hb. by injection Hb as <-.
Qed.

Lemma allowed_read_fields_omits_denied
    (fields : dict) graphene_type generated name (cfg : dict) r :
  NoDup (Dict.keys fields) ->
  allowed_read_fields call input_type_class (PDict fields) graphene_type = Ok generated ->
  Dict.get name fields = Some (PDict cfg) ->
  Dict.get READ cfg = Some r ->
  (r = PStr DENY \/ exists xs, r = PList xs /\ PStr DENY ∈ xs) ->
  name ∉ Dict.keys generated.
Proof.
  intros Hnd Hgen Hname Hread Hr Hin.
  unfold allowed_read_fields in Hgen.
  apply bind_Ok in Hgen as (allowed & Hallowed & Hmap).
  apply (map_with_obj_keys _ _ _ name Hmap) in Hin.
  destruct (filter_dict_elem _ _ _ _ Hallowed Hin) as (v & b & Hv & Hb & Ht).
  rewrite (get_elem_NoDup _ _ _ Hnd Hv) in Hname. injection Hname as ->.
  unfold read_not_denied in Hb. cbn [snd] in Hb.
  rewrite (read_denied_entry cfg r Hread Hr) in Hb. by injection Hb as <-.
Qed.

Lemma allowed_filter_pairs_keys field_name graphene_type pairs key value :
  allowed_filter_pairs call testing field_name graphene_type = Ok pairs ->
  (key, value) ∈ pairs ->
  exists suffix,
    suffix ∈ Dict.keys (FILTER_FIELDS testing)
    /\ key = field_name +:+ "_" +:+ suffix.
Proof.
  unfold allowed_filter_pairs. intros Hp Hin.
  apply bind_Ok in Hp as (compliant & Hcompliant & Hvalues).
  unfold R.map_with_obj_to_values in Hvalues.
  destruct (mapM_Ok_elem _ _ _ _ Hvalues Hin) as ([suffix config] & Hs & Hb).
  apply bind_Ok in Hb as (value' & _ & [= <- <-]).
  exists suffix. split; [|done].
  apply elem_keys in Hs.
  destruct (filter_dict_elem _ _ _ _ Hcompliant Hs) as (v & b & Hv & _).
  by eapply elem_keys.
Qed.

Lemma make_filters_keys pair filters key :
  make_filters call testing pair = Ok filters ->
  key ∈ Dict.keys filters ->
  key = fst pair
  \/ exists suffix,
      suffix ∈ Dict.keys (FILTER_FIELDS testing)
      /\ key = fst pair +:+ "_" +:+ suffix.
Proof.
  unfold make_filters, R.from_pairs. intros Hm Hk.
  apply bind_Ok in Hm as (filter_pairs & Hpairs & [= <-]).
  apply (proj1 (elem_keys_of_pairs _ _)) in Hk. simpl in Hk.
  apply elem_of_cons in Hk as [->|Hk]; [by left|]. right.
  apply list_elem_of_fmap in Hk as ([k v] & -> & Hin).
  by eapply allowed_filter_pairs_keys.
Qed.

Lemma allowed_filter_arguments_keys
    fields_dict (fields : dict) graphene_type generated key :
  call_if_lambda fields_dict = PDict fields ->
  allowed_filter_arguments call input_type_class testing fields_dict graphene_type
  = Ok generated ->
  key ∈ Dict.keys generated ->
  exists name v,
    (name, v) ∈ fields
    /\ truthy (R.prop_eq_or_in READ DENY v) = false
    /\ (key = name
        \/ exists suffix,
            suffix ∈ Dict.keys (FILTER_FIELDS testing)
            /\ key = name +:+ "_" +:+ suffix).
Proof.
  intros Hfields Hgen Hkey. unfold allowed_filter_arguments in Hgen.
  rewrite Hfields in Hgen.
  apply bind_Ok in Hgen as (allowed & Hallowed & Hgen).
  apply bind_Ok in Hgen as (argument_dict & Hargs & Hadd).
  unfold add_filters, R.to_pairs in Hadd.
  apply bind_Ok in Hadd as (dcts & Hdcts & [= <-]).
  apply merge_all_keys in Hkey as (filters & Hfilters & Hkey).
  destruct (mapM_Ok_elem _ _ _ _ Hdcts Hfilters) as ([name arg] & Harg & Hmake).
  pose proof (make_filters_keys _ _ _ Hmake Hkey) as Hshape. simpl in Hshape.
  apply elem_keys in Harg.
  apply (map_with_obj_keys _ _ _ name Hargs) in Harg.
  destruct (filter_dict_elem _ _ _ _ Hallowed Harg) as (v & b & Hv & Hb & Ht).
  exists name, v. split; [done|]. split; [|done].
  unfold read_not_denied in Hb. simpl in Hb. injection Hb as <-.
  simpl in Ht. by apply negb_true_iff in Ht.
Qed.

End GenerationFacts.

(** C1, as the code has it: for a crud operation, [input_type_fields]
    generates no field for a name whose configuration has [DENY] for that
    operation; [allowed_read_fields] generates none for a name whose ['read']
    entry is [DENY] or a list that contains [DENY]; and every key that
    [allowed_filter_arguments] generates is the name of a field that is not
    denied for reading, or such a name followed by an underscore and a key
    of [FILTER_FIELDS].  So the name of a field denied for reading is a key
    of the filter arguments only when it is also the filter name of a field
    that is not denied. *)
Theorem generated_fields_omit_denied
    (call : pyval -> list pyval -> dict -> result pyval)
    (input_type_class : pyval -> string -> pyval -> result pyval) (testing : bool)
    (fields_dict graphene_type parents : pyval) (fields generated : dict)
    (name : string) (cfg : dict)
    (Hfields : call_if_lambda fields_dict = PDict fields)
    (Hnodup : NoDup (Dict.keys fields))
    (Hname : Dict.get name fields = Some (PDict cfg)) :
  (forall crud,
      crud <> "" ->
      Dict.get crud cfg = Some (PStr DENY) ->
      input_type_fields call input_type_class fields_dict (Some crud) parents = Ok generated ->
      name ∉ Dict.keys generated)
  /\ (forall r,
      Dict.get READ cfg = Some r ->
      (r = PStr DENY \/ exists xs, r = PList xs /\ PStr DENY ∈ xs) ->
      allowed_read_fields call input_type_class (PDict fields) graphene_type = Ok generated ->
      name ∉ Dict.keys generated)
  /\ (forall r,
      Dict.get READ cfg = Some r ->
      (r = PStr DENY \/ exists xs, r = PList xs /\ PStr DENY ∈ xs) ->
      allowed_filter_arguments call input_type_class testing fields_dict graphene_type
      = Ok generated ->
      name ∈ Dict.keys generated ->
      exists other v suffix,
        (other, v) ∈ fields
        /\ truthy (R.prop_eq_or_in READ DENY v) = false
        /\ suffix ∈ Dict.keys (FILTER_FIELDS testing)
        /\ name = other +:+ "_" +:+ suffix)
  /\ (forall key,
      allowed_filter_arguments call input_type_class testing fields_dict graphene_type
      = Ok generated ->
      key ∈ Dict.keys generated ->
      exists other v,
        (other, v) ∈ fields
        /\ truthy (R.prop_eq_or_in READ DENY v) = false
        /\ (key = other
            \/ exists suffix,
                suffix ∈ Dict.keys (FILTER_FIELDS testing)
                /\ key = other +:+ "_" +:+ suffix)).
Proof.
  split; [|split; [|split]].
  - intros crud Hcrud Hdeny Hgen.
    by eapply input_type_fields_omits_denied.
  - intros r Hread Hr Hgen.
    by eapply allowed_read_fields_omits_denied.
  - intros r Hread Hr Hgen Hin.
    destruct (allowed_filter_arguments_keys _ _ _ _ _ _ _ _ Hfields Hgen Hin)
      as (other & v & Hv & Hallowed & [->|(suffix & Hs & ->)]).
    + rewrite (get_elem_NoDup _ _ _ Hnodup Hv) in Hname. injection Hname as ->.
      rewrite (read_denied_entry cfg r Hread Hr) in Hallowed. discriminate.
    + exists other, v, suffix. done.
  - intros key Hgen Hin. by eapply allowed_filter_arguments_keys.
Qed.

(** A password that cannot be read is not among the read input fields. *)
Lemma generated_fields_omit_denied_witness :
  let cfg := [("type", graphene.String); ("read", PStr DENY)] in
  let fields := [("name", PDict [("type", graphene.String)]); ("password", PDict cfg)] in
  let generated :=
    [("name", PCall graphene.String [] [("required", PBool false)])] in
  input_type_fields scalar_call (fun _ _ _ => Raise TypeError)
    (PDict fields) (Some READ) (PList [])
  = Ok generated
  /\ "password" ∉ Dict.keys generated.
Proof.
  intros cfg fields generated.
  assert (Hnodup : NoDup (Dict.keys fields))
    by (apply (bool_decide_unpack _); vm_compute; exact I).
  split; [reflexivity|].
  refine (proj1 (generated_fields_omit_denied
                   scalar_call (fun _ _ _ => Raise TypeError) true
                   (PDict fields) graphene.ObjectType (PList [])
                   fields generated "password" cfg eq_refl Hnodup eq_refl)
            READ _ eq_refl eq_refl).
  discriminate.
Defined.

(** C1 as stated fails for [allowed_filter_arguments]: the field ['name_in']
    is denied for reading, and ['name_in'] is a key of the generated
    arguments, as the ['in'] filter of the field ['name']. *)
Lemma allowed_filter_arguments_name_clash_counterexample :
  let fields :=
    [("name", PDict [("type", graphene.String)]);
     ("name_in", PDict [("type", graphene.String); ("read", PStr DENY)])] in
  R.prop_eq_or_in READ DENY (PDict [("type", graphene.String); ("read", PStr DENY)])
  = PBool true
  /\ exists generated,
      allowed_filter_arguments scalar_call (fun _ _ _ => Raise TypeError) true
        (PDict fields) graphene.ObjectType = Ok generated
      /\ Dict.keys generated
         = ["name"; "name_contains"; "name_contains_not"; "name_icontains";
            "name_icontains_not"; "name_in"; "name_in_not"]
      /\ Dict.has "name_in" generated = true.
Proof.
  intros fields. split; [reflexivity|].
  eexists. split; [reflexivity|]. split; reflexivity.
Qed.

(** ** Parameters for update or create *)

(** C2 (the code departs from it): with no ['id'] and one field, marked
    unique, the field is to be placed at top level; the dict built has that
    one key, the test for a dict with only ['defaults'] counts one key, and
    the call raises on the missing ['defaults'] instead of returning the
    dict. *)
Theorem input_type_parameters_single_unique_field :
  let fields_dict := PDict [("username", PDict [("unique", PList [PStr UNIQUE])])] in
  let field_name_to_value := [("username", PStr "jo")] in
  R.has "id" (PDict field_name_to_value) = false
  /\ key_value_based_on_unique_or_foreign
       [("username", PDict [("username", PStr "jo")])] fields_dict "username"
     = Ok (PDict [("username", PStr "jo")])
  /\ R.merge_deep_all [PDict [("username", PStr "jo")]]
     = PDict [("username", PStr "jo")]
  /\ input_type_parameters_for_update_or_create fields_dict field_name_to_value
     = Raise (Exception "No key defaults found")
  /\ input_type_parameters_for_update_or_create fields_dict field_name_to_value
     <> Ok (PDict [("username", PStr "jo")]).
Proof. intros fields_dict field_name_to_value. repeat split. discriminate. Qed.

(** The same for any single unique field. *)
Lemma input_type_parameters_lone_unique_field key value :
  key <> "id" -> key <> "defaults" ->
  input_type_parameters_for_update_or_create
    (PDict [(key, PDict [("unique", PList [PStr UNIQUE])])]) [(key, value)]
  = Raise (Exception "No key defaults found").
Proof.
  intros Hid Hdef. apply eqb_string_false in Hid, Hdef.
  unfold input_type_parameters_for_update_or_create, R.omit, R.has, Dict.has.
  cbn [List.filter fst snd existsb Dict.get].
  rewrite Hid. cbn [orb negb].
  unfold R.map_with_obj, related_object_id_if_django_type, py_getitem.
  cbn [mapM fst snd Dict.get]. rewrite String.eqb_refl.
  cbn.
  unfold key_value_based_on_unique_or_foreign, py_getitem, R.item_path_or, R.prop_or.
  cbn [Dict.get fold_left bind is_none]. rewrite !String.eqb_refl.
  cbn. by rewrite Hdef.
Qed.

(** With other fields beside it the unique field is at top level and the
    others are under ['defaults']; with an ['id'] every other field is under
    ['defaults']; with no unique field the defaults are returned. *)
Example input_type_parameters_shapes :
  let fields_dict :=
    PDict [("username", PDict [("unique", PList [PStr UNIQUE])]);
           ("email", PDict []);
           ("region", PDict [("django_type", PClass "Region" [])])] in
  input_type_parameters_for_update_or_create fields_dict
    [("username", PStr "jo"); ("email", PStr "e"); ("region", PDict [("id", PInt 5)])]
  = Ok (PDict [("username", PStr "jo");
               ("defaults", PDict [("email", PStr "e"); ("region_id", PInt 5)])])
  /\ input_type_parameters_for_update_or_create fields_dict
       [("id", PInt 3); ("username", PStr "jo"); ("email", PStr "e");
        ("region", PDict [("id", PInt 5)])]
     = Ok (PDict [("id", PInt 3);
                  ("defaults", PDict [("username", PStr "jo"); ("email", PStr "e");
                                      ("region_id", PInt 5)])])
  /\ input_type_parameters_for_update_or_create fields_dict
       [("email", PStr "e"); ("region", PDict [("id", PInt 5)])]
     = Ok (PDict [("email", PStr "e"); ("region_id", PInt 5)]).
Proof. intros fields_dict. repeat split. Qed.

(** ** Placing the pairs *)

Section PlacingFacts.
Implicit Types (T O : dict) (k : string) (v : pyval).

Lemma get_app_Some k v T (d : dict) :
  Dict.get k T = Some v -> Dict.get k (T ++ d) = Some v.
Proof.
  induction T as [|[k1 v1] T IH]; simpl; [done|].
  destruct (String.eqb k1 k); auto.
Qed.

Lemma get_app_None k T (d : dict) :
  Dict.get k T = None -> Dict.get k (T ++ d) = Dict.get k d.
Proof.
  induction T as [|[k1 v1] T IH]; simpl; [done|].
  destruct (String.eqb k1 k); [discriminate | auto].
Qed.

Lemma length_set_present k v T :
  Dict.has k T = true -> List.length (Dict.set k v T) = List.length T.
Proof.
  unfold Dict.has. induction T as [|[k1 v1] T IH]; simpl; [discriminate|].
  destruct (String.eqb k1 k); simpl; [done|]. intros Hh. by rewrite IH.
Qed.

Lemma merge_deep_fresh T k v :
  k ∉ Dict.keys T ->
  R.merge_deep (PDict T) (PDict [(k, v)]) = PDict (T ++ [(k, v)]).
Proof.
  intros Hk. cbn [R.merge_deep].
  rewrite (proj2 (get_None_keys k T) Hk). by rewrite set_fresh.
Qed.

Lemma merge_deep_defaults T O pair :
  Dict.get "defaults" T = Some (PDict O) ->
  fst pair ∉ Dict.keys O ->
  R.merge_deep (PDict T) (PDict [("defaults", PDict [pair])])
  = PDict (Dict.set "defaults" (PDict (O ++ [pair])) T).
Proof.
  intros Hd Hk. destruct pair as [k v].
  change (R.merge_deep (PDict T) (PDict [("defaults", PDict [(k, v)])]))
    with (PDict (match Dict.get "defaults" T with
                 | None => Dict.set "defaults" (PDict [(k, v)]) T
                 | Some bv =>
                     Dict.set "defaults" (R.merge_deep bv (PDict [(k, v)])) T
                 end)).
  rewrite Hd. by rewrite merge_deep_fresh.
Qed.

Lemma uniques_snoc items item :
  uniques (items ++ [item]) = uniques items ++ (if snd item then [fst item] else []).
Proof.
  unfold uniques. rewrite List.filter_app, List.map_app. simpl. by destruct (snd item).
Qed.

Lemma others_snoc items item :
  others (items ++ [item]) = others items ++ (if snd item then [] else [fst item]).
Proof.
  unfold others. rewrite List.filter_app, List.map_app. simpl. by destruct (snd item).
Qed.

Lemma uniques_keys items k :
  k ∈ Dict.keys (uniques items) -> k ∈ Dict.keys (map fst items).
Proof.
  unfold uniques, Dict.keys. rewrite !list_elem_of_fmap.
  intros (p & -> & Hp). apply list_elem_of_fmap in Hp as (item & -> & Hi).
  apply list_elem_of_In, filter_In in Hi as [Hi _]. apply list_elem_of_In in Hi.
  exists (fst item). split; [done|]. apply list_elem_of_fmap. eauto.
Qed.

Lemma others_keys items k :
  k ∈ Dict.keys (others items) -> k ∈ Dict.keys (map fst items).
Proof.
  unfold others, Dict.keys. rewrite !list_elem_of_fmap.
  intros (p & -> & Hp). apply list_elem_of_fmap in Hp as (item & -> & Hi).
  apply list_elem_of_In, filter_In in Hi as [Hi _]. apply list_elem_of_In in Hi.
  exists (fst item). split; [done|]. apply list_elem_of_fmap. eauto.
Qed.

(** The dict in which every pair has been placed: the unique pairs are its
    entries, the others are the entries of its ['defaults'], in order. *)
Lemma merge_deep_all_placed items :
  NoDup (Dict.keys (map fst items)) ->
  "defaults" ∉ Dict.keys (uniques items) ->
  exists T,
    R.merge_deep_all (map place items) = PDict T
    /\ (forall pair, pair ∈ uniques items -> Dict.get (fst pair) T = Some (snd pair))
    /\ Dict.get "defaults" T
       = match others items with [] => None | o => Some (PDict o) end
    /\ (forall k, k ∈ Dict.keys T -> k ∈ Dict.keys (uniques items) \/ k = "defaults")
    /\ List.length T
       = List.length (uniques items) + match others items with [] => 0 | _ => 1 end.
Proof.
  unfold R.merge_deep_all.
  induction items as [|[pair u] items IH] using rev_ind; intros Hnd Hdef.
  - exists []. repeat split; try done; intros ? Hk; by apply elem_of_nil in Hk.
  - rewrite map_app, fold_left_app. simpl fold_left.
    rewrite map_app in Hnd. unfold Dict.keys in Hnd. rewrite fmap_app in Hnd.
    apply NoDup_app in Hnd as (Hnd & Hfresh & _).
    assert (Hpair : fst pair ∉ Dict.keys (map fst items)).
    { intros Hin. apply (Hfresh _ Hin). simpl. left. }
    rewrite uniques_snoc in Hdef |- *. rewrite others_snoc. simpl snd. simpl fst.
    unfold Dict.keys in Hdef. rewrite fmap_app, not_elem_of_app in Hdef.
    destruct Hdef as [Hdef Hdefp].
    destruct (IH Hnd Hdef) as (T & -> & Huniq & Hothers & Hkeys & Hlen).
    destruct u; unfold place; simpl snd; simpl fst.
    + (* a unique pair *)
      assert (Hne : fst pair <> "defaults").
      { intros Heq. apply Hdefp. rewrite <- Heq. simpl. left. }
      assert (HT : fst pair ∉ Dict.keys T).
      { intros Hin. destruct (Hkeys _ Hin) as [Hu|Hd]; [|done].
        by apply Hpair, uniques_keys. }
      destruct pair as [k v]. cbn [fst snd] in *.
      rewrite merge_deep_fresh by done. exists (T ++ [(k, v)]).
      split; [done|]. split; [|split; [|split]].
      * intros q Hq. apply elem_of_app in Hq as [Hq|Hq].
        -- by apply get_app_Some, Huniq.
        -- apply list_elem_of_singleton in Hq as ->. simpl.
           rewrite get_app_None by (by apply get_None_keys). simpl.
           by rewrite String.eqb_refl.
      * rewrite app_nil_r, <- Hothers.
        destruct (Dict.get "defaults" T) as [d|] eqn:Hd.
        -- by apply get_app_Some.
        -- rewrite get_app_None by done. simpl.
           apply eqb_string_false in Hne. by rewrite Hne.
      * intros k' Hk'. unfold Dict.keys in Hk' |- *. rewrite fmap_app in Hk' |- *.
        apply elem_of_app in Hk' as [Hk'|Hk'].
        -- destruct (Hkeys _ Hk'); [left; apply elem_of_app; by left | by right].
        -- left. apply elem_of_app. by right.
      * rewrite !length_app, app_nil_r. simpl. lia.
    + (* a pair for the defaults *)
      rewrite app_nil_r.
      destruct (others items) as [|o os] eqn:Ho.
      * assert (HT : "defaults" ∉ Dict.keys T) by (by apply get_None_keys).
        rewrite merge_deep_fresh by done.
        exists (T ++ [("defaults", PDict [pair])]).
        split; [done|]. split; [|split; [|split]].
        -- intros q Hq. by apply get_app_Some, Huniq.
        -- rewrite get_app_None by done. simpl. done.
        -- intros k' Hk'. unfold Dict.keys in Hk'. rewrite fmap_app in Hk'.
           apply elem_of_app in Hk' as [Hk'|Hk']; [by apply Hkeys|].
           right. simpl in Hk'. by apply list_elem_of_singleton in Hk'.
        -- rewrite length_app. simpl. lia.
      * assert (Ho' : fst pair ∉ Dict.keys (o :: os)).
        { intros Hin. apply Hpair, others_keys. by rewrite Ho. }
        rewrite (merge_deep_defaults T (o :: os) pair Hothers Ho').
        exists (Dict.set "defaults" (PDict ((o :: os) ++ [pair])) T).
        split; [done|]. split; [|split; [|split]].
        -- intros q Hq. rewrite get_set_ne; [by apply Huniq|].
           intros Heq. apply Hdef. rewrite Heq. apply list_elem_of_fmap. eauto.
        -- by rewrite get_set_eq.
        -- intros k' Hk'. apply Hkeys. rewrite keys_set in Hk'.
           unfold Dict.has in Hk'. by rewrite Hothers in Hk'.
        -- rewrite length_set_present; [simpl in *; lia|].
           unfold Dict.has. by rewrite Hothers.
Qed.

End PlacingFacts.

(** ** The parameters, field by field *)

Section ParameterFacts.

Variable fields_dict : pyval.

Lemma related_object_pair key value :
  related_object_id_if_django_type fields_dict key value
  = do pair <- modified_pair fields_dict key value ; Ok (single pair).
Proof.
  unfold related_object_id_if_django_type, modified_pair.
  destruct (py_getitem key fields_dict) as [field_config|e]; simpl; [|done].
  destruct (truthy _); [|done]. by destruct (R.prop "id" value).
Qed.

Lemma keys_combine {A} (ks : list string) (xs : list A) :
  List.length xs = List.length ks -> Dict.keys (combine ks xs) = ks.
Proof.
  revert xs. induction ks as [|k ks IH]; intros [|x xs] Hlen;
    simpl in *; try done. f_equal. apply IH. lia.
Qed.

Lemma values_combine {A} (ks : list string) (xs : list A) :
  List.length xs = List.length ks -> Dict.values (combine ks xs) = xs.
Proof.
  revert xs. induction ks as [|k ks IH]; intros [|x xs] Hlen;
    simpl in *; try done. f_equal. apply IH. lia.
Qed.

Lemma fst_combine {A B} (xs : list A) (ys : list B) :
  List.length xs = List.length ys -> map fst (combine xs ys) = xs.
Proof.
  revert ys. induction xs as [|x xs IH]; intros [|y ys] Hlen;
    simpl in *; try done. f_equal. apply IH. lia.
Qed.

Lemma mapM_related (l : dict) pairs :
  mapM (fun kv => modified_pair fields_dict (fst kv) (snd kv)) l = Ok pairs ->
  mapM (fun kv =>
          do v <- related_object_id_if_django_type fields_dict (fst kv) (snd kv) ;
          Ok (fst kv, v)) l
  = Ok (combine (Dict.keys l) (map (fun pair => single pair) pairs)).
Proof.
  revert pairs. induction l as [|[k v] l IH]; intros pairs Hm; simpl in Hm.
  - by injection Hm as <-.
  - apply bind_Ok in Hm as (pair & Hpair & Hm).
    apply bind_Ok in Hm as (pairs' & Hpairs' & [= <-]).
    cbn [mapM fst snd]. rewrite related_object_pair, Hpair. cbn [bind].
    by rewrite (IH _ Hpairs').
Qed.

Lemma map_with_obj_related (l : dict) pairs :
  NoDup (Dict.keys l) ->
  mapM (fun kv => modified_pair fields_dict (fst kv) (snd kv)) l = Ok pairs ->
  R.map_with_obj (related_object_id_if_django_type fields_dict) l
  = Ok (combine (Dict.keys l) (map (fun pair => single pair) pairs)).
Proof.
  intros Hnd Hm. unfold R.map_with_obj. rewrite (mapM_related _ _ Hm). cbn [bind].
  f_equal. apply of_pairs_NoDup. rewrite keys_combine; [done|].
  unfold Dict.keys. rewrite !length_map. by apply mapM_Ok_length in Hm.
Qed.

Lemma omit_absent (d : dict) k : Dict.has k d = false -> R.omit [k] d = d.
Proof.
  unfold Dict.has, R.omit. induction d as [|[k1 v1] d IH]; simpl; [done|].
  rewrite orb_false_r, String.eqb_sym.
  destruct (String.eqb k k1) eqn:E; simpl.
  - discriminate.
  - intros Hh. f_equal. by apply IH.
Qed.

Lemma omit_NoDup (d : dict) ks : NoDup (Dict.keys d) -> NoDup (Dict.keys (R.omit ks d)).
Proof.
  unfold R.omit. induction d as [|[k1 v1] d IH]; simpl; [done|].
  intros Hnd. apply NoDup_cons in Hnd as [Hk Hnd].
  destruct (negb _); simpl; [|auto].
  apply NoDup_cons. split; [|auto].
  intros Hin. apply Hk. apply list_elem_of_fmap in Hin as ([k v] & -> & Hin).
  apply list_elem_of_In, filter_In in Hin as [Hin _]. apply list_elem_of_In in Hin.
  by eapply elem_keys.
Qed.

Lemma as_dicts_singles pairs :
  as_dicts (map (fun pair => single pair) pairs) = Ok (map (fun pair => [pair]) pairs).
Proof.
  unfold as_dicts. induction pairs as [|pair pairs IH]; [done|].
  simpl. simpl in IH. by rewrite IH.
Qed.

Lemma merge_all_singles pairs :
  R.merge_all (map (fun pair => [pair]) pairs) = Dict.of_pairs pairs.
Proof.
  unfold R.merge_all, Dict.of_pairs.
  assert (Hgen : forall acc : dict,
    fold_left R.merge (map (fun pair => [pair]) pairs) acc
    = fold_left (fun acc kv => Dict.set (fst kv) (snd kv) acc) pairs acc).
  { induction pairs as [|pair pairs IH]; intros acc; [done|]. simpl. by rewrite IH. }
  apply Hgen.
Qed.

(** X1, with an ['id']: the id at top level, and under ['defaults'] the dict of
    the pairs of the other fields, a later pair replacing an earlier one with
    the same key. *)
Lemma input_type_parameters_with_id (field_name_to_value : dict) id pairs :
  NoDup (Dict.keys field_name_to_value) ->
  Dict.get "id" field_name_to_value = Some id ->
  mapM (fun kv => modified_pair fields_dict (fst kv) (snd kv))
    (R.omit ["id"] field_name_to_value) = Ok pairs ->
  input_type_parameters_for_update_or_create fields_dict field_name_to_value
  = Ok (PDict [("id", id); ("defaults", PDict (Dict.of_pairs pairs))]).
Proof.
  intros Hnd Hid Hm. unfold input_type_parameters_for_update_or_create.
  rewrite (map_with_obj_related _ _ (omit_NoDup _ ["id"] Hnd) Hm). cbn [bind].
  unfold R.has, Dict.has, R.getitem, py_getitem. rewrite Hid. cbn [bind].
  unfold R.values. rewrite values_combine.
  - rewrite as_dicts_singles. cbn [bind]. by rewrite merge_all_singles.
  - unfold Dict.keys. rewrite !length_map. by apply mapM_Ok_length in Hm.
Qed.

Lemma key_values_placed (pre l : dict) pairs flags :
  NoDup (Dict.keys l) ->
  (forall k, k ∈ Dict.keys l -> k ∉ Dict.keys pre) ->
  List.length pairs = List.length l ->
  mapM (fun kv => marked_unique fields_dict (fst kv)) l = Ok flags ->
  mapM (fun kv =>
          key_value_based_on_unique_or_foreign
            (pre ++ combine (Dict.keys l) (map (fun pair => single pair) pairs))
            fields_dict (fst kv)) l
  = Ok (map place (combine pairs flags)).
Proof.
  revert pre pairs flags.
  induction l as [|[k v] l IH]; intros pre pairs flags Hnd Hpre Hlen Hflags.
  - injection Hflags as <-. by destruct pairs.
  - destruct pairs as [|pair pairs]; [done|]. simpl in Hlen.
    simpl in Hflags. apply bind_Ok in Hflags as (u & Hu & Hflags).
    apply bind_Ok in Hflags as (flags' & Hflags' & [= <-]).
    simpl in Hnd. apply NoDup_cons in Hnd as [Hk Hnd].
    cbn [mapM fst snd Dict.keys map combine].
    assert (Hhead :
      key_value_based_on_unique_or_foreign
        (pre ++ (k, single pair) ::
           combine (Dict.keys l) (map (fun pair => single pair) pairs))
        fields_dict k
      = Ok (place (pair, u))).
    { unfold key_value_based_on_unique_or_foreign, py_getitem.
      rewrite get_app_None.
      - cbn [Dict.get]. rewrite String.eqb_refl. cbn [bind].
        fold (marked_unique fields_dict k). rewrite Hu. cbn [bind].
        unfold place. by destruct u.
      - apply get_None_keys, Hpre. simpl. left. }
    fold (Dict.keys l). rewrite Hhead. cbn [bind].
    replace (pre ++ (k, single pair) ::
               combine (Dict.keys l) (map (fun pair => single pair) pairs))
      with ((pre ++ [(k, single pair)]) ++
              combine (Dict.keys l) (map (fun pair => single pair) pairs))
      by (by rewrite <- app_assoc).
    rewrite (IH (pre ++ [(k, single pair)]) pairs flags'); try done; [|lia].
    intros k' Hk' Hin. unfold Dict.keys in Hin. rewrite fmap_app in Hin.
    apply elem_of_app in Hin as [Hin|Hin].
    + apply (Hpre k'); [simpl; by right | done].
    + simpl in Hin. apply list_elem_of_singleton in Hin as ->. done.
Qed.

(** X2, without an ['id'], when no two fields contribute the same key and no
    unique field contributes the key ['defaults']: the unique pairs are at
    top level and the others are the entries of ['defaults'], in order; a
    dict with only ['defaults'] is replaced by its defaults; a dict with only
    one unique pair makes the call raise. *)
Lemma input_type_parameters_without_id (field_name_to_value : dict) pairs flags :
  NoDup (Dict.keys field_name_to_value) ->
  Dict.has "id" field_name_to_value = false ->
  mapM (fun kv => modified_pair fields_dict (fst kv) (snd kv)) field_name_to_value
  = Ok pairs ->
  mapM (fun kv => marked_unique fields_dict (fst kv)) field_name_to_value = Ok flags ->
  NoDup (Dict.keys pairs) ->
  "defaults" ∉ Dict.keys (uniques (combine pairs flags)) ->
  exists T,
    (forall pair,
        pair ∈ uniques (combine pairs flags) -> Dict.get (fst pair) T = Some (snd pair))
    /\ Dict.get "defaults" T
       = match others (combine pairs flags) with [] => None | o => Some (PDict o) end
    /\ (forall k,
        k ∈ Dict.keys T ->
        k ∈ Dict.keys (uniques (combine pairs flags)) \/ k = "defaults")
    /\ match uniques (combine pairs flags), others (combine pairs flags) with
       | [], _ :: _ =>
           input_type_parameters_for_update_or_create fields_dict field_name_to_value
           = Ok (PDict (others (combine pairs flags)))
       | [_], [] =>
           input_type_parameters_for_update_or_create fields_dict field_name_to_value
           = Raise (Exception "No key defaults found")
       | _, _ =>
           input_type_parameters_for_update_or_create fields_dict field_name_to_value
           = Ok (PDict T)
       end.
Proof.
  intros Hnd Hid Hpairs Hflags Hndp Hdef.
  assert (Hlenp : List.length pairs = List.length field_name_to_value)
    by (by apply mapM_Ok_length in Hpairs).
  assert (Hlenf : List.length flags = List.length field_name_to_value)
    by (by apply mapM_Ok_length in Hflags).
  destruct (merge_deep_all_placed (combine pairs flags))
    as (T & HT & Huniq & Hothers & Hkeys & Hlen); [|done|].
  { rewrite fst_combine; [done | lia]. }
  exists T. split; [done|]. split; [done|]. split; [done|].
  unfold input_type_parameters_for_update_or_create.
  rewrite (omit_absent _ _ Hid).
  rewrite (map_with_obj_related _ _ Hnd Hpairs). cbn [bind].
  unfold R.has. rewrite Hid.
  unfold R.map_with_obj_to_values. cbv beta.
  assert (Hkv := key_values_placed [] field_name_to_value pairs flags Hnd).
  cbn [app] in Hkv. rewrite Hkv; try done.
  2:{ intros k _ Hin. by apply elem_of_nil in Hin. }
  cbn [bind]. rewrite HT. unfold R.when, R.keys, Dict.keys. rewrite length_map, Hlen.
  destruct (uniques (combine pairs flags)) as [|u1 [|u2 us]];
    destruct (others (combine pairs flags)) as [|o os]; cbn [List.length Nat.add Nat.eqb];
    unfold R.prop; rewrite ?Hothers; done.
Qed.

End ParameterFacts.

(** ** Related values *)

Section RelatedFacts.

Variable testing : bool.
Variable models : string -> model.
Variable flatten_dct_until : dict -> (pyval -> pyval -> bool) -> string -> dict.

(** On a dict for a foreign key, [process_query_kwarg] prefixes the
    expressions that [process_query_value] gives for the related model. *)
Lemma process_query_kwarg_foreign_key model_ key related (kvs : dict) :
  PyStr.endswith "__not" key = false ->
  forward_field key (_forward_fields_map model_) = Some (ForeignKey related) ->
  process_query_kwarg testing models flatten_dct_until model_ key (PDict kvs)
  = do q_expressions <-
      process_query_value testing models flatten_dct_until (models related) (PDict kvs) ;
    mapM
      (fun q_expression =>
         do child <- first_child q_expression ;
         Ok (Q (key +:+ "__" +:+ fst child) (snd child)))
      q_expressions.
Proof.
  intros Hend Hfield. cbn [process_query_kwarg]. rewrite Hend, Hfield.
  unfold process_query_value, R.map_with_obj_to_values, R.chain. cbn [py_items bind].
  f_equal. clear.
  induction kvs as [|[k inner_value] kvs IH]; [done|].
  cbn [mapM fst snd]. rewrite IH.
  destruct (process_query_kwarg testing models flatten_dct_until (models related)
              k inner_value) as [qs|e]; [|done].
  cbn [bind].
  destruct (mapM _ kvs) as [qss|e]; [|done]. done.
Qed.

End RelatedFacts.

(** A value of [decimal.Decimal] is refused, an instance of the scalar class
    is given back as a string. *)
Example Decimal_serialize_examples :
  DecimalScalar.serialize
    {| DecimalScalar.ob_type := DecimalScalar.decimal_Decimal;
       DecimalScalar.ob_str := "1.5";
       DecimalScalar.ob_repr := "Decimal('1.5')" |}
  = Raise (AssertionError
             ("Received not compatible Decimal " +:+ DecimalScalar.dquote
                +:+ "Decimal('1.5')" +:+ DecimalScalar.dquote))
  /\ DecimalScalar.serialize
       {| DecimalScalar.ob_type := DecimalScalar.Decimal;
          DecimalScalar.ob_str := "scalar";
          DecimalScalar.ob_repr := "scalar" |}
     = Ok "scalar".
Proof. split; reflexivity. Qed.

(* ===================================================================== *)
(** * Further properties *)
(* ===================================================================== *)

(** ** Loops that stop at the first exception *)

Lemma mapM_Raise_elem {A B} (f : A -> result B) xs x e :
  x ∈ xs -> f x = Raise e -> exists e', mapM f xs = Raise e'.
Proof.
  induction xs as [|y xs IH]; intros Hin Hx; [by apply elem_of_nil in Hin|].
  simpl. apply elem_of_cons in Hin as [<-|Hin].
  - rewrite Hx. by eexists.
  - destruct (f y); [|by eexists]. simpl.
    destruct (IH Hin Hx) as (e' & ->). by eexists.
Qed.

Lemma mapM_total {A B} (f : A -> result B) (g : A -> B) xs :
  (forall x, x ∈ xs -> f x = Ok (g x)) -> mapM f xs = Ok (map g xs).
Proof.
  induction xs as [|x xs IH]; intros Hf; [done|]. simpl.
  rewrite Hf by left. simpl. rewrite IH; [done|]. intros y Hy. apply Hf. by right.
Qed.

Lemma filterM_total {A} (f : A -> result bool) (g : A -> bool) xs :
  (forall x, x ∈ xs -> f x = Ok (g x)) -> filterM f xs = Ok (List.filter g xs).
Proof.
  induction xs as [|x xs IH]; intros Hf; [done|]. simpl.
  rewrite Hf by left. simpl. rewrite IH; [done|]. intros y Hy. apply Hf. by right.
Qed.

Lemma filterM_Ok_complete {A} (f : A -> result bool) xs ys x :
  filterM f xs = Ok ys -> x ∈ xs -> f x = Ok true -> x ∈ ys.
Proof.
  revert ys. induction xs as [|y xs IH]; simpl; intros ys Hm Hin Hx.
  - by apply elem_of_nil in Hin.
  - apply bind_Ok in Hm as (b & Hb & Hm). apply bind_Ok in Hm as (ys' & Hys & [= <-]).
    apply elem_of_cons in Hin as [->|Hin].
    + rewrite Hx in Hb. injection Hb as <-. left.
    + destruct b; [right|]; eauto.
Qed.

Lemma filterM_NoDup_keys {A} (f : string * A -> result bool) xs ys :
  filterM f xs = Ok ys -> NoDup (Dict.keys xs) -> NoDup (Dict.keys ys).
Proof.
  intros Hm Hnd. apply (sublist_NoDup _ _ Hnd).
  apply filterM_Ok_sublist in Hm. unfold Dict.keys. by apply fmap_sublist.
Qed.

Lemma map_with_obj_keys_eq {A} (f : string -> pyval -> result A) (d : dict) r :
  NoDup (Dict.keys d) -> R.map_with_obj f d = Ok r -> Dict.keys r = Dict.keys d.
Proof.
  unfold R.map_with_obj. intros Hnd Hm.
  apply bind_Ok in Hm as (pairs & Hpairs & [= <-]).
  assert (Hkeys : Dict.keys pairs = Dict.keys d).
  { clear Hnd. revert pairs Hpairs. induction d as [|[k v] d IH]; intros pairs Hp.
    - by injection Hp as <-.
    - simpl in Hp. apply bind_Ok in Hp as (y & Hy & Hp).
      apply bind_Ok in Hp as (ys & Hys & [= <-]).
      apply bind_Ok in Hy as (y' & _ & [= <-]). simpl. f_equal. by apply IH. }
  rewrite of_pairs_NoDup; [done|]. by rewrite Hkeys.
Qed.

(** ** Parameters for update or create: the errors *)

(** X3: [input_type_parameters_for_update_or_create] raises when a field
    other than ['id'] is not a key of the fields dict, and when a field with a
    true ['django_type'] has a value without an ['id']. *)
Theorem input_type_parameters_raises
    (fields : dict) (field_name_to_value : dict) (key : string) (value : pyval) :
  (key, value) ∈ field_name_to_value ->
  key <> "id" ->
  (Dict.get key fields = None
   \/ exists field_config,
       Dict.get key fields = Some field_config
       /\ truthy (R.prop_or (PBool false) "django_type" field_config) = true
       /\ R.has "id" value = false) ->
  exists e,
    input_type_parameters_for_update_or_create (PDict fields) field_name_to_value
    = Raise e.
Proof.
  intros Hin Hkey Hbad. unfold input_type_parameters_for_update_or_create.
  assert (Hraise : exists e,
    related_object_id_if_django_type (PDict fields) key value = Raise e).
  { unfold related_object_id_if_django_type, py_getitem.
    destruct Hbad as [->|(cfg & -> & Hdj & Hid)]; [by eexists|].
    cbn [bind]. rewrite Hdj. unfold R.has in Hid. unfold R.prop.
    destruct value; try by eexists.
    unfold Dict.has in Hid. destruct (Dict.get "id" kvs); [discriminate|]. by eexists. }
  destruct Hraise as (e & Hraise).
  assert (Homit : (key, value) ∈ R.omit ["id"] field_name_to_value).
  { unfold R.omit. apply list_elem_of_In, filter_In.
    split; [by apply list_elem_of_In|]. simpl.
    apply eqb_string_false in Hkey. by rewrite Hkey. }
  unfold R.map_with_obj.
  destruct (mapM_Raise_elem
              (fun kv =>
                 do v <- related_object_id_if_django_type (PDict fields) (fst kv) (snd kv) ;
                 Ok (fst kv, v))
              _ (key, value) e Homit) as (e' & ->).
  - cbn [fst snd]. by rewrite Hraise.
  - by eexists.
Qed.

(** A field that the fields dict does not know. *)
Lemma input_type_parameters_raises_witness :
  ("age", PInt 3) ∈ [("name", PStr "jo"); ("age", PInt 3)]
  /\ "age" <> "id"
  /\ Dict.get "age" [("name", PDict [])] = None
  /\ exists e,
      input_type_parameters_for_update_or_create (PDict [("name", PDict [])])
        [("name", PStr "jo"); ("age", PInt 3)]
      = Raise e.
Proof.
  assert (Hin : ("age", PInt 3) ∈ [("name", PStr "jo"); ("age", PInt 3)])
    by (right; left).
  assert (Hne : "age" <> "id") by discriminate.
  split; [exact Hin|]. split; [exact Hne|]. split; [reflexivity|].
  exact (input_type_parameters_raises [("name", PDict [])]
           [("name", PStr "jo"); ("age", PInt 3)] "age" (PInt 3)
           Hin Hne (or_introl eq_refl)).
Defined.

(** ** The fields that are generated *)

Lemma prop_eq_or_deny crud (cfg : dict) :
  R.prop_eq_or (PBool false) crud DENY (PDict cfg)
  = Ok (match Dict.get crud cfg with
        | Some v => if truthy v then PBool (eq_str v DENY) else v
        | None => PBool false
        end).
Proof.
  unfold R.prop_eq_or, py_in, py_getitem, Dict.has. cbn [bind].
  by destruct (Dict.get crud cfg).
Qed.

Lemma kept_not_denied crud (cfg : dict) :
  truthy (R.not_func
            (match Dict.get crud cfg with
             | Some v => if truthy v then PBool (eq_str v DENY) else v
             | None => PBool false
             end)) = true
  <-> Dict.get crud cfg <> Some (PStr DENY).
Proof.
  destruct (Dict.get crud cfg) as [v|]; simpl; [|split; [discriminate | done]].
  destruct (truthy v) eqn:Ht; simpl.
  - destruct v; simpl; try (split; [discriminate | done]).
    destruct (String.eqb s DENY) eqn:E; simpl.
    + apply eqb_string_true in E as ->. split; [discriminate | congruence].
    + apply eqb_string_false in E. split; [congruence | done].
  - rewrite Ht. split; [|done]. intros _ [= ->]. discriminate.
Qed.

Lemma get_keys_NoDup {A} (d : list (string * A)) k :
  k ∈ Dict.keys d -> exists v, Dict.get k d = Some v.
Proof.
  intros Hk. destruct (Dict.get k d) eqn:E; [eauto|].
  by apply get_None_keys in E.
Qed.

Section GeneratedFacts.

Variable call : pyval -> list pyval -> dict -> result pyval.
Variable input_type_class : pyval -> string -> pyval -> result pyval.

(** X4: when [input_type_fields] returns, for field configurations that are
    dicts, the generated fields are exactly the fields whose entry for the
    crud operation is not [DENY]: none of them is left out. *)
Theorem input_type_fields_generates
    (fields_dict parents : pyval) (fields generated : dict) (crud : string) :
  call_if_lambda fields_dict = PDict fields ->
  NoDup (Dict.keys fields) ->
  (forall name v, (name, v) ∈ fields -> exists cfg, v = PDict cfg) ->
  crud <> "" ->
  input_type_fields call input_type_class fields_dict (Some crud) parents = Ok generated ->
  forall name,
    name ∈ Dict.keys generated
    <-> exists cfg,
        Dict.get name fields = Some (PDict cfg)
        /\ Dict.get crud cfg <> Some (PStr DENY).
Proof.
  intros Hfields Hnd Hdicts Hcrud Hgen name.
  unfold input_type_fields in Hgen.
  assert (Htruthy : truthy (PStr crud) = true).
  { simpl. apply eqb_string_false in Hcrud. by rewrite Hcrud. }
  rewrite Htruthy, Hfields in Hgen.
  apply bind_Ok in Hgen as (allowed & Hallowed & Hmap).
  unfold R.filter_dict in Hallowed. cbn [py_items bind] in Hallowed.
  apply bind_Ok in Hallowed as (kept & Hkept & [= <-]).
  pose proof (filterM_NoDup_keys _ _ _ Hkept Hnd) as Hndk.
  rewrite (of_pairs_NoDup kept Hndk) in Hmap.
  rewrite (map_with_obj_keys_eq _ _ _ Hndk Hmap).
  split.
  - intros Hin. apply list_elem_of_fmap in Hin as ([k v] & -> & Hin).
    destruct (filterM_Ok_elem _ _ _ _ Hkept Hin) as [Hf Hb].
    destruct (Hdicts _ _ Hf) as (cfg & ->). exists cfg.
    split; [by apply get_elem_NoDup|].
    cbn [fst snd] in Hb. rewrite prop_eq_or_deny in Hb. cbn [bind] in Hb.
    injection Hb as Hb. by apply kept_not_denied.
  - intros (cfg & Hget & Hnot). apply get_Some_elem in Hget.
    eapply elem_keys. eapply filterM_Ok_complete; [exact Hkept | exact Hget |].
    cbn [fst snd]. rewrite prop_eq_or_deny. cbn [bind]. f_equal.
    by apply kept_not_denied.
Qed.

Lemma prop_eq_or_in_entry value key (cfg : dict) :
  R.prop_eq_or_in_or (PBool false) key value (PDict cfg)
  = PBool (is_or_contains value (Dict.get key cfg)).
Proof. unfold R.prop_eq_or_in_or, is_or_contains. by destruct (Dict.get key cfg). Qed.

(** X15: with no crud operation given, [input_type_fields] guesses it from
    the fields as they are passed: a dict with an ['id'] field is an update,
    a dict without one is a create, and fields passed as a lambda are a
    create whether or not they have an ['id'] field. *)
Theorem input_type_fields_guess (fields : dict) (parents : pyval) :
  input_type_fields call input_type_class (PLambda0 (PDict fields)) None parents
  = input_type_fields call input_type_class (PLambda0 (PDict fields)) (Some CREATE) parents
  /\ (Dict.has "id" fields = true ->
      input_type_fields call input_type_class (PDict fields) None parents
      = input_type_fields call input_type_class (PDict fields) (Some UPDATE) parents)
  /\ (Dict.has "id" fields = false ->
      input_type_fields call input_type_class (PDict fields) None parents
      = input_type_fields call input_type_class (PDict fields) (Some CREATE) parents).
Proof.
  unfold input_type_fields, guess_update_or_create. cbn [R.has truthy].
  split; [done|]. split; intros ->; done.
Qed.

(** X16: when [allowed_read_fields] returns, for field configurations that
    are dicts, the fields it gives are exactly the fields whose ['read']
    entry is neither [DENY] nor a list that contains [DENY]. *)
Theorem allowed_read_fields_generates
    (graphene_type : pyval) (fields generated : dict) :
  NoDup (Dict.keys fields) ->
  (forall name v, (name, v) ∈ fields -> exists cfg, v = PDict cfg) ->
  allowed_read_fields call input_type_class (PDict fields) graphene_type = Ok generated ->
  forall name,
    name ∈ Dict.keys generated
    <-> exists cfg,
        Dict.get name fields = Some (PDict cfg)
        /\ is_or_contains DENY (Dict.get READ cfg) = false.
Proof.
  intros Hnd Hdicts Hgen name. unfold allowed_read_fields in Hgen.
  apply bind_Ok in Hgen as (allowed & Hallowed & Hmap).
  unfold R.filter_dict in Hallowed. cbn [py_items bind] in Hallowed.
  apply bind_Ok in Hallowed as (kept & Hkept & [= <-]).
  pose proof (filterM_NoDup_keys _ _ _ Hkept Hnd) as Hndk.
  rewrite (of_pairs_NoDup kept Hndk) in Hmap.
  unfold R.map_dict in Hmap. rewrite (map_with_obj_keys_eq _ _ _ Hndk Hmap).
  assert (Hpred : forall k (cfg : dict),
    (do v <- read_not_denied (k, PDict cfg) ; Ok (truthy v))
    = Ok (negb (is_or_contains DENY (Dict.get READ cfg)))).
  { intros k cfg. unfold read_not_denied, R.prop_eq_or_in. cbn [snd bind].
    rewrite prop_eq_or_in_entry. by destruct (is_or_contains _ _). }
  split.
  - intros Hin. apply list_elem_of_fmap in Hin as ([k v] & -> & Hin).
    destruct (filterM_Ok_elem _ _ _ _ Hkept Hin) as [Hf Hb].
    destruct (Hdicts _ _ Hf) as (cfg & ->). exists cfg.
    split; [by apply get_elem_NoDup|].
    rewrite Hpred in Hb. injection Hb as Hb. by apply negb_true_iff.
  - intros (cfg & Hget & Hnot). apply get_Some_elem in Hget.
    eapply elem_keys. eapply filterM_Ok_complete; [exact Hkept | exact Hget |].
    cbv beta. rewrite Hpred. by rewrite Hnot.
Qed.

End GeneratedFacts.

(** ** Filter arguments *)

Lemma FILTER_FIELDS_shape testing :
  forallb (fun kv => filter_config_shape (snd kv)) (FILTER_FIELDS testing) = true.
Proof. destruct testing; vm_compute; reflexivity. Qed.

Lemma FILTER_FIELDS_NoDup testing : NoDup (Dict.keys (FILTER_FIELDS testing)).
Proof. rewrite FILTER_FIELDS_pairs. apply with_not_versions_NoDup. Qed.

Lemma any_issubclass_classes c ts :
  isclass c = true -> forallb isclass ts = true ->
  any_issubclass c ts = Ok (existsb (subclass_of c) ts).
Proof.
  intros Hc. induction ts as [|t ts IH]; [done|]. cbn [forallb existsb any_issubclass].
  intros Hts. apply andb_true_iff in Hts as [Ht Hts].
  destruct c; try discriminate. destruct t; try discriminate.
  unfold subclass_of at 1. cbn [issubclass bind].
  destruct (_ || _); [done|]. by apply IH.
Qed.

Lemma filter_shape_elem testing suffix config :
  (suffix, config) ∈ FILTER_FIELDS testing -> filter_config_shape config = true.
Proof.
  intros Hin. pose proof (FILTER_FIELDS_shape testing) as Hall.
  rewrite forallb_forall in Hall. apply list_elem_of_In in Hin. exact (Hall _ Hin).
Qed.

Lemma mapM_ext_elem {A B} (f g : A -> result B) xs :
  (forall x, x ∈ xs -> f x = g x) -> mapM f xs = mapM g xs.
Proof.
  induction xs as [|x xs IH]; intros Hf; [done|]. simpl.
  rewrite Hf by left. rewrite IH; [done|]. intros y Hy. apply Hf. by right.
Qed.

Lemma mapM_Ok_keys {A B} (key : A -> string) (value : A -> result B) xs pairs :
  mapM (fun x => do v <- value x ; Ok (key x, v)) xs = Ok pairs ->
  Dict.keys pairs = map key xs.
Proof.
  revert pairs. induction xs as [|x xs IH]; simpl; intros pairs Hm.
  - by injection Hm as <-.
  - apply bind_Ok in Hm as (y & Hy & Hm). apply bind_Ok in Hm as (ys & Hys & [= <-]).
    apply bind_Ok in Hy as (v & _ & [= <-]). simpl. f_equal. by apply IH.
Qed.

Lemma mapM_returns {A B} (f : A -> result B) xs :
  (forall x, x ∈ xs -> exists y, f x = Ok y) -> exists ys, mapM f xs = Ok ys.
Proof.
  induction xs as [|x xs IH]; intros Hf; [by eexists|]. simpl.
  destruct (Hf x) as (y & ->); [left|]. simpl.
  destruct IH as (ys & ->); [intros z Hz; apply Hf; by right|]. by eexists.
Qed.

Lemma filters_allowed_for_sublist testing graphene_type :
  Dict.keys (filters_allowed_for testing graphene_type)
  `sublist_of` Dict.keys (FILTER_FIELDS testing).
Proof.
  unfold Dict.keys, filters_allowed_for. apply fmap_sublist.
  induction (FILTER_FIELDS testing) as [|kv l IH]; [constructor|]. simpl.
  destruct (filter_allowed_for _ _); [by apply sublist_skip | by apply sublist_cons].
Qed.

Lemma class_of_class v : exists name bases, class_of v = PClass name bases.
Proof. destruct v; simpl; eauto. destruct v; eauto. Qed.

Lemma app_nonempty_ne (a b : string) : b <> "" -> a <> a +:+ b.
Proof.
  intros Hb Heq. apply (f_equal String.length) in Heq.
  rewrite length_app_string in Heq. destruct b; [done|]. simpl in Heq. lia.
Qed.

Section FilterFacts.

Variable call : pyval -> list pyval -> dict -> result pyval.
Variable testing : bool.

(** For a class the test on ['allowed_types'] does not raise, and the
    pairs are made from the allowed entries of the table. *)
Lemma allowed_filter_pairs_class field_name name bases :
  allowed_filter_pairs call testing field_name (PClass name bases)
  = filter_pairs_for call testing field_name (PClass name bases).
Proof.
  unfold allowed_filter_pairs, filter_pairs_for, R.filter_dict. cbn [py_items bind].
  set (cls := PClass name bases).
  rewrite (filterM_total _ (fun kv => filter_allowed_for cls (snd kv))).
  - cbn [bind]. fold (filters_allowed_for testing cls). rewrite of_pairs_NoDup.
    + unfold R.map_with_obj_to_values. apply mapM_ext_elem.
      intros [suffix config] Hin. cbn [fst snd].
      apply list_elem_of_In, filter_In in Hin as [Hin _]. apply list_elem_of_In in Hin.
      pose proof (filter_shape_elem _ _ _ Hin) as Hshape.
      destruct config as [| | | | |c| | | |]; try discriminate.
      unfold R.has, Dict.has, py_getitem, filter_argument, filter_name.
      by destruct (Dict.get "type_modifier" c) as [modifier|].
    + apply (sublist_NoDup _ _ (FILTER_FIELDS_NoDup testing)).
      apply filters_allowed_for_sublist.
  - intros [suffix config] Hin. cbn [snd].
    pose proof (filter_shape_elem _ _ _ Hin) as Hshape.
    destruct config as [| | | | |c| | | |]; try discriminate.
    cbn [filter_config_shape] in Hshape. apply andb_true_iff in Hshape as [Htypes _].
    unfold R.has, Dict.has, py_getitem, filter_allowed_for.
    destruct (Dict.get "allowed_types" c) as [types|]; [|done]. cbn [negb bind].
    destruct types; try discriminate. cbn [py_iter bind].
    rewrite any_issubclass_classes by done. done.
Qed.

Lemma filter_pairs_for_keys field_name graphene_type pairs :
  filter_pairs_for call testing field_name graphene_type = Ok pairs ->
  Dict.keys pairs
  = map (filter_name field_name) (Dict.keys (filters_allowed_for testing graphene_type)).
Proof.
  unfold filter_pairs_for. intros Hp.
  rewrite (mapM_Ok_keys (fun kv => filter_name field_name (fst kv)) _ _ _ Hp).
  unfold Dict.keys. by rewrite map_map.
Qed.

Lemma filter_names_NoDup field_name graphene_type :
  NoDup (field_name
         :: map (filter_name field_name)
              (Dict.keys (filters_allowed_for testing graphene_type))).
Proof.
  apply NoDup_cons. split.
  - intros Hin. apply list_elem_of_fmap in Hin as (suffix & Heq & _).
    by apply (app_nonempty_ne field_name ("_" +:+ suffix)) in Heq.
  - apply (NoDup_fmap_2 (fun suffix => field_name +:+ "_" +:+ suffix)).
    apply (sublist_NoDup _ _ (FILTER_FIELDS_NoDup testing)).
    apply filters_allowed_for_sublist.
Qed.

(** X6: for a field of any class, the test of [allowed_filter_pairs] on the
    ['allowed_types'] does not raise, and the pairs are made, in the order
    of the table, from the entries of [FILTER_FIELDS] that have no
    ['allowed_types'] or have the class or an ancestor of it among them: the
    key is the field name, an underscore and the suffix, the value is what
    the ['type_modifier'] of the entry called with the class gives, or the
    class called without arguments.  So the call returns when each of these
    calls does, and then its keys are these names, all different. *)
Theorem allowed_filter_pairs_by_type
    (field_name name : string) (bases : list string) :
  let cls := PClass name bases in
  let allowed :=
    List.filter (fun kv => filter_allowed_for cls (snd kv)) (FILTER_FIELDS testing) in
  allowed_filter_pairs call testing field_name cls
  = mapM (fun kv =>
            do value <- filter_argument call cls (snd kv) ;
            Ok (field_name +:+ "_" +:+ fst kv, value))
      allowed
  /\ ((forall suffix config,
          (suffix, config) ∈ allowed ->
          exists value, filter_argument call cls config = Ok value) ->
      exists pairs, allowed_filter_pairs call testing field_name cls = Ok pairs)
  /\ (forall pairs,
        allowed_filter_pairs call testing field_name cls = Ok pairs ->
        Dict.keys pairs = map (fun kv => field_name +:+ "_" +:+ fst kv) allowed
        /\ NoDup (Dict.keys pairs)
        /\ forall key value,
            (key, value) ∈ pairs ->
            exists suffix config,
              (suffix, config) ∈ allowed
              /\ key = field_name +:+ "_" +:+ suffix
              /\ filter_argument call cls config = Ok value).
Proof.
  intros cls allowed. subst cls allowed.
  split; [apply allowed_filter_pairs_class|]. split.
  - intros Hcalls. rewrite allowed_filter_pairs_class. apply mapM_returns.
    intros [suffix config] Hin. destruct (Hcalls _ _ Hin) as (value & Hv).
    cbn [fst snd]. rewrite Hv. by eexists.
  - intros pairs Hp. rewrite allowed_filter_pairs_class in Hp.
    pose proof (filter_pairs_for_keys _ _ _ Hp) as Hkeys. split; [|split].
    + rewrite Hkeys. unfold Dict.keys, filters_allowed_for. by rewrite map_map.
    + rewrite Hkeys.
      pose proof (filter_names_NoDup field_name (PClass name bases)) as Hnd.
      by apply NoDup_cons in Hnd as [_ Hnd].
    + intros key value Hin.
      destruct (mapM_Ok_elem _ _ _ _ Hp Hin) as ([suffix config] & Hs & Hb).
      cbn [fst snd] in Hb. apply bind_Ok in Hb as (value' & Hv & [= <- <-]).
      exists suffix, config. done.
Qed.

Lemma make_filters_pairs field_name value filters :
  make_filters call testing (field_name, value) = Ok filters ->
  exists pairs,
    filter_pairs_for call testing field_name (class_of value) = Ok pairs
    /\ filters = (field_name, value) :: pairs.
Proof.
  unfold make_filters. cbn [fst snd]. intros Hm.
  apply bind_Ok in Hm as (pairs & Hpairs & [= <-]). exists pairs.
  destruct (class_of_class value) as (name & bases & Hcls). rewrite Hcls in *.
  rewrite allowed_filter_pairs_class in Hpairs. split; [done|].
  unfold R.from_pairs. apply of_pairs_NoDup.
  cbn [Dict.keys map]. fold (Dict.keys pairs).
  rewrite (filter_pairs_for_keys _ _ _ Hpairs). apply filter_names_NoDup.
Qed.

(** X7: when [make_filters] returns, the dict starts with the argument it
    was given, under its own name and with its own value, followed by the
    filter pairs of the class of the value; the keys are all different, so
    no filter takes the place of the argument. *)
Theorem make_filters_keeps_argument
    (field_name : string) (value : pyval) (filters : dict) :
  make_filters call testing (field_name, value) = Ok filters ->
  exists pairs,
    allowed_filter_pairs call testing field_name (class_of value) = Ok pairs
    /\ filters = (field_name, value) :: pairs
    /\ Dict.get field_name filters = Some value
    /\ NoDup (Dict.keys filters).
Proof.
  intros Hm. destruct (make_filters_pairs _ _ _ Hm) as (pairs & Hpairs & ->).
  exists pairs. split; [|split; [done|split]].
  - destruct (class_of_class value) as (name & bases & Hcls). rewrite Hcls in *.
    by rewrite allowed_filter_pairs_class.
  - simpl. by rewrite String.eqb_refl.
  - cbn [Dict.keys map]. fold (Dict.keys pairs).
    rewrite (filter_pairs_for_keys _ _ _ Hpairs). apply filter_names_NoDup.
Qed.

Lemma merge_all_keys_elem (ds : list dict) (d : dict) k :
  d ∈ ds -> k ∈ Dict.keys d -> k ∈ Dict.keys (R.merge_all ds).
Proof.
  unfold R.merge_all. intros Hd Hk.
  assert (Hgen : forall acc : dict,
    (k ∈ Dict.keys acc \/ exists d, d ∈ ds /\ k ∈ Dict.keys d) ->
    k ∈ Dict.keys (fold_left R.merge ds acc)).
  { clear. induction ds as [|d ds IH]; intros acc Hk; simpl.
    - destruct Hk as [Hk|(d & Hd & _)]; [done | by apply elem_of_nil in Hd].
    - apply IH. destruct Hk as [Hk|(d' & Hd' & Hk)].
      + left. apply elem_keys_update. by left.
      + apply elem_of_cons in Hd' as [->|Hd'].
        * left. apply elem_keys_update. by right.
        * right. eauto. }
  apply Hgen. right. eauto.
Qed.

Lemma mapM_Ok_image {A B} (f : A -> result B) xs ys x :
  mapM f xs = Ok ys -> x ∈ xs -> exists y, y ∈ ys /\ f x = Ok y.
Proof.
  revert ys. induction xs as [|x' xs IH]; simpl; intros ys Hm Hin.
  - by apply elem_of_nil in Hin.
  - apply bind_Ok in Hm as (y' & Hy' & Hm). apply bind_Ok in Hm as (ys' & Hys & [= <-]).
    apply elem_of_cons in Hin as [->|Hin].
    + exists y'. split; [left | done].
    + destruct (IH _ Hys Hin) as (y & Hy & Hf). exists y. split; [by right | done].
Qed.

(** X8: when [add_filters] returns, the keys of its result are the names of
    the arguments together with the filter names of each argument: its
    name, an underscore and a suffix of [FILTER_FIELDS] allowed for the class
    of its value. *)
Theorem add_filters_keys (argument_dict result : dict) :
  add_filters call testing argument_dict = Ok result ->
  forall key,
    key ∈ Dict.keys result
    <-> exists name value,
        (name, value) ∈ argument_dict
        /\ (key = name
            \/ exists suffix config,
                (suffix, config) ∈ FILTER_FIELDS testing
                /\ filter_allowed_for (class_of value) config = true
                /\ key = name +:+ "_" +:+ suffix).
Proof.
  unfold add_filters, R.to_pairs. intros Hadd key.
  apply bind_Ok in Hadd as (dcts & Hdcts & [= <-]). split.
  - intros Hkey. apply merge_all_keys in Hkey as (d & Hd & Hkey).
    destruct (mapM_Ok_elem _ _ _ _ Hdcts Hd) as ([name value] & Hin & Hmake).
    destruct (make_filters_pairs _ _ _ Hmake) as (pairs & Hpairs & ->).
    exists name, value. split; [done|].
    cbn [Dict.keys map] in Hkey. fold (Dict.keys pairs) in Hkey.
    apply elem_of_cons in Hkey as [->|Hkey]; [by left|]. right.
    rewrite (filter_pairs_for_keys _ _ _ Hpairs) in Hkey.
    apply list_elem_of_fmap in Hkey as (suffix & -> & Hs).
    apply list_elem_of_fmap in Hs as ([suffix' config] & -> & Hs).
    apply list_elem_of_In, filter_In in Hs as [Hs Hallowed].
    apply list_elem_of_In in Hs. exists suffix', config. done.
  - intros (name & value & Hin & Hkey).
    destruct (mapM_Ok_image _ _ _ _ Hdcts Hin) as (d & Hd & Hmake).
    apply (merge_all_keys_elem _ d); [done|].
    destruct (make_filters_pairs _ _ _ Hmake) as (pairs & Hpairs & ->).
    cbn [Dict.keys map]. fold (Dict.keys pairs).
    destruct Hkey as [->|(suffix & config & Hs & Hallowed & ->)]; [left|right].
    rewrite (filter_pairs_for_keys _ _ _ Hpairs).
    apply list_elem_of_fmap. exists suffix. split; [done|].
    apply list_elem_of_fmap. exists (suffix, config). split; [done|].
    apply list_elem_of_In, filter_In. split; [by apply list_elem_of_In | done].
Qed.

End FilterFacts.

(** The filters of a [String] argument named ['name'], with the table of
    the tests. *)
Lemma allowed_filter_pairs_by_type_witness :
  (exists pairs,
      allowed_filter_pairs scalar_call true "name" graphene.String = Ok pairs)
  /\ allowed_filter_pairs scalar_call true "name" graphene.String
     = Ok [("name_contains", PCall graphene.String [] []);
           ("name_contains_not", PCall graphene.String [] []);
           ("name_icontains", PCall graphene.String [] []);
           ("name_icontains_not", PCall graphene.String [] []);
           ("name_in", PCall graphene.List_of [graphene.String] []);
           ("name_in_not", PCall graphene.List_of [graphene.String] [])].
Proof.
  split; [|reflexivity].
  apply (proj1 (proj2 (allowed_filter_pairs_by_type scalar_call true
                         "name" "String" ["Scalar"]))).
  intros suffix config Hin.
  set (allowed := List.filter _ _) in Hin. vm_compute in allowed. subst allowed.
  repeat (apply elem_of_cons in Hin as [[= -> ->]|Hin]; [by eexists|]).
  by apply elem_of_nil in Hin.
Defined.

(** The argument ['name'] with a [String] value, and its filters. *)
Lemma make_filters_keeps_argument_witness :
  let value := PCall graphene.String [] [] in
  make_filters scalar_call true ("name", value)
  = Ok [("name", value);
        ("name_contains", PCall graphene.String [] []);
        ("name_contains_not", PCall graphene.String [] []);
        ("name_icontains", PCall graphene.String [] []);
        ("name_icontains_not", PCall graphene.String [] []);
        ("name_in", PCall graphene.List_of [graphene.String] []);
        ("name_in_not", PCall graphene.List_of [graphene.String] [])]
  /\ exists pairs,
      allowed_filter_pairs scalar_call true "name" (class_of value) = Ok pairs
      /\ [("name", value);
          ("name_contains", PCall graphene.String [] []);
          ("name_contains_not", PCall graphene.String [] []);
          ("name_icontains", PCall graphene.String [] []);
          ("name_icontains_not", PCall graphene.String [] []);
          ("name_in", PCall graphene.List_of [graphene.String] []);
          ("name_in_not", PCall graphene.List_of [graphene.String] [])]
         = ("name", value) :: pairs.
Proof.
  intros value. split; [reflexivity|].
  destruct (make_filters_keeps_argument scalar_call true "name" value _ eq_refl)
    as (pairs & Hpairs & Heq & _).
  exists pairs. split; [exact Hpairs | exact Heq].
Defined.

(** Two arguments: ['age_in'] is a key of the result, as the ['in'] filter
    of ['age']. *)
Lemma add_filters_keys_witness :
  let arguments := [("name", PCall graphene.String [] []); ("age", PCall graphene.Int [] [])] in
  exists result,
    add_filters scalar_call true arguments = Ok result
    /\ ("age_in" ∈ Dict.keys result
        <-> exists name value,
            (name, value) ∈ arguments
            /\ ("age_in" = name
                \/ exists suffix config,
                    (suffix, config) ∈ FILTER_FIELDS true
                    /\ filter_allowed_for (class_of value) config = true
                    /\ "age_in" = name +:+ "_" +:+ suffix)).
Proof.
  intros arguments. eexists. split; [reflexivity|].
  exact (add_filters_keys scalar_call true arguments _ eq_refl "age_in").
Defined.

(** ** Query keywords of related models *)

Section RelatedQueryFacts.

Variable testing : bool.
Variable models : string -> model.
Variable flatten_dct_until : dict -> (pyval -> pyval -> bool) -> string -> dict.

(** X9: in the dict given for a foreign key, a key that ends with
    ['__not'] gives a negated expression for the related model, and
    [process_query_kwarg] builds the expression of the foreign key from its
    key and value only: the result is the plain [Q(key__k=v)], the negation
    is gone. *)
Theorem process_query_kwarg_related_negation
    (model_ : model) (key related k : string) (v : pyval) :
  PyStr.endswith "__not" key = false ->
  forward_field key (_forward_fields_map model_) = Some (ForeignKey related) ->
  PyStr.contains "__not" (k +:+ "__no") = false ->
  process_query_kwarg testing models flatten_dct_until (models related)
    (k +:+ "__not") v
  = Ok [Not (Q k v)]
  /\ process_query_kwarg testing models flatten_dct_until model_ key
       (PDict [(k +:+ "__not", v)])
     = Ok [Q (key +:+ "__" +:+ k) v].
Proof.
  intros Hend Hfield Hno.
  assert (Hinner :
    process_query_kwarg testing models flatten_dct_until (models related)
      (k +:+ "__not") v = Ok [Not (Q k v)]).
  { rewrite process_query_kwarg_not by apply endswith_app.
    by rewrite replace_not_suffix. }
  split; [exact Hinner|].
  cbn [process_query_kwarg]. rewrite Hend, Hfield, Hinner. reflexivity.
Qed.

End RelatedQueryFacts.

(** The users that are not called jo, asked for through a group. *)
Lemma process_query_kwarg_related_negation_witness :
  let group := {| _forward_fields_map := [("user", ForeignKey "User")];
                  related_objects := [] |} in
  let user := {| _forward_fields_map := [("name", OtherField)];
                 related_objects := [] |} in
  PyStr.endswith "__not" "user" = false
  /\ forward_field "user" (_forward_fields_map group) = Some (ForeignKey "User")
  /\ PyStr.contains "__not" ("name" +:+ "__no") = false
  /\ process_query_kwarg true (fun _ => user) (fun d _ _ => d) group "user"
       (PDict [("name" +:+ "__not", PStr "jo")])
     = Ok [Q ("user" +:+ "__" +:+ "name") (PStr "jo")].
Proof.
  intros group user. split; [reflexivity|]. split; [reflexivity|].
  split; [reflexivity|].
  exact (proj2 (process_query_kwarg_related_negation true (fun _ => user)
                  (fun d _ _ => d) group "user" "User" "name" (PStr "jo")
                  eq_refl eq_refl eq_refl)).
Defined.

(** ** Keys that already have the double underscore *)

(** X11: a key that is already written with the double underscore before a
    suffix of [FILTER_FIELDS] still contains the underscore and the suffix,
    so [filter_key] doubles its underscores once more: the separator becomes
    four underscores. *)
Theorem filter_key_orm_style
    (testing : bool) (p suffix : string) (v : pyval) :
  suffix ∈ Dict.keys (FILTER_FIELDS testing) ->
  PyStr.contains "_" p = false ->
  PyStr.contains "_" suffix = false ->
  filter_key testing (p +:+ "__" +:+ suffix) v = p +:+ "____" +:+ suffix.
Proof.
  intros Hin Hp Hs. rewrite filter_key_matching.
  - rewrite !double_underscores_app.
    by rewrite (double_underscores_none p), (double_underscores_none suffix).
  - exists suffix. split; [done|].
    assert (Heq : p +:+ "__" +:+ suffix = (p +:+ "_") +:+ ("_" +:+ suffix) +:+ "").
    { rewrite app_empty_r, app_assoc_string. done. }
    rewrite Heq. apply contains_app.
Qed.

(** ['id__contains'] becomes ['id____contains']. *)
Lemma filter_key_orm_style_witness :
  "contains" ∈ Dict.keys (FILTER_FIELDS true)
  /\ PyStr.contains "_" "id" = false
  /\ PyStr.contains "_" "contains" = false
  /\ filter_key true ("id" +:+ "__" +:+ "contains") PNone
     = "id" +:+ "____" +:+ "contains".
Proof.
  assert (Hin : "contains" ∈ Dict.keys (FILTER_FIELDS true))
    by (apply (bool_decide_unpack _); vm_compute; exact I).
  split; [exact Hin|]. split; [reflexivity|]. split; [reflexivity|].
  exact (filter_key_orm_style true "id" "contains" PNone Hin eq_refl eq_refl).
Defined.

(** ** The type of an ORM field *)

Lemma field_class_types_truthy cls typ :
  Dict.get cls field_class_types = Some typ -> truthy typ = true /\ is_none typ = false.
Proof.
  intros Hget. apply get_Some_elem in Hget.
  assert (Hall : forallb (fun kv => truthy (snd kv) && negb (is_none (snd kv)))
                   field_class_types = true) by reflexivity.
  rewrite forallb_forall in Hall. apply list_elem_of_In in Hget.
  apply Hall in Hget. cbn [snd] in Hget.
  apply andb_true_iff in Hget as [Ht Hn]. by apply negb_true_iff in Hn.
Qed.

Lemma first_mapped_class_step cls first_bases :
  first_mapped_class cls first_bases
  = match Dict.get cls field_class_types with
    | Some typ => Some typ
    | None =>
        match first_bases with
        | [] => None
        | base :: first_bases' => first_mapped_class base first_bases'
        end
    end.
Proof.
  destruct first_bases as [|base rest]; cbn [first_mapped_class]; unfold R.prop_or;
    destruct (Dict.get cls field_class_types) as [typ|] eqn:Hget; try done;
    destruct (field_class_types_truthy _ _ Hget) as [Ht Hn]; by rewrite Hn, Ht.
Qed.

(** X12: without a ['graphene_type'] in the field configuration,
    [django_to_graphene_type] gives the type that the table has for the
    class of the field or, failing that, for the nearest class of its chain
    of first bases that the table has; it raises [IndexError] exactly when
    the table has none of these classes.  With a true ['graphene_type'] the
    class is not looked at. *)
Theorem django_to_graphene_type_nearest
    (field_class : string) (first_bases : list string)
    (field_dict_value parent_type_classes : pyval) :
  (truthy (R.prop_or (PBool false) "graphene_type"
             (if truthy field_dict_value then field_dict_value else PDict [])) = true ->
   django_to_graphene_type field_class first_bases field_dict_value parent_type_classes
   = Some (RelatedInputField field_dict_value parent_type_classes))
  /\ (truthy (R.prop_or (PBool false) "graphene_type"
                (if truthy field_dict_value then field_dict_value else PDict [])) = false ->
      (django_to_graphene_type field_class first_bases field_dict_value
         parent_type_classes = None
       <-> forall cls, cls ∈ field_class :: first_bases ->
                       Dict.get cls field_class_types = None)
      /\ (forall resolved,
          django_to_graphene_type field_class first_bases field_dict_value
            parent_type_classes = Some resolved ->
          exists above cls below typ,
            field_class :: first_bases = above ++ cls :: below
            /\ (forall c, c ∈ above -> Dict.get c field_class_types = None)
            /\ Dict.get cls field_class_types = Some typ
            /\ resolved = GrapheneType typ)).
Proof.
  unfold django_to_graphene_type. split; [by intros ->|]. intros ->.
  assert (Hnone : forall cls bases,
    first_mapped_class cls bases = None
    <-> forall c, c ∈ cls :: bases -> Dict.get c field_class_types = None).
  { intros cls bases. revert cls.
    induction bases as [|base bases IH]; intros cls; rewrite first_mapped_class_step.
    - destruct (Dict.get cls field_class_types) eqn:Hget.
      + split; [discriminate|]. intros Hall. rewrite Hall in Hget by left. discriminate.
      + split; [|done]. intros _ c Hc. by apply list_elem_of_singleton in Hc as ->.
    - destruct (Dict.get cls field_class_types) eqn:Hget.
      + split; [discriminate|]. intros Hall. rewrite Hall in Hget by left. discriminate.
      + rewrite IH. split.
        * intros Hall c Hc. apply elem_of_cons in Hc as [->|Hc]; auto.
        * intros Hall c Hc. apply Hall. by right. }
  assert (Hsome : forall cls bases typ,
    first_mapped_class cls bases = Some typ ->
    exists above c below,
      cls :: bases = above ++ c :: below
      /\ (forall c', c' ∈ above -> Dict.get c' field_class_types = None)
      /\ Dict.get c field_class_types = Some typ).
  { intros cls bases. revert cls.
    induction bases as [|base bases IH]; intros cls typ; rewrite first_mapped_class_step;
      destruct (Dict.get cls field_class_types) eqn:Hget; try discriminate.
    - intros [= <-]. exists [], cls, []. split; [done|]. split; [|done].
      intros c' Hc'. by apply elem_of_nil in Hc'.
    - intros [= <-]. exists [], cls, (base :: bases). split; [done|]. split; [|done].
      intros c' Hc'. by apply elem_of_nil in Hc'.
    - intros Hrest. destruct (IH _ _ Hrest) as (above & c & below & Heq & Habove & Hc).
      exists (cls :: above), c, below. split; [by rewrite Heq|]. split; [|done].
      intros c' Hc'. apply elem_of_cons in Hc' as [->|Hc']; auto. }
  split.
  - rewrite <- Hnone. by destruct (first_mapped_class field_class first_bases).
  - intros resolved Hres.
    destruct (first_mapped_class field_class first_bases) as [typ|] eqn:Hfirst;
      [|discriminate].
    injection Hres as <-.
    destruct (Hsome _ _ _ Hfirst) as (above & c & below & Heq & Habove & Hc).
    exists above, c, below, typ. done.
Qed.

(** A subclass of [CharField] that the table does not list is a string; a
    class with no listed class above it raises. *)
Example django_to_graphene_type_examples :
  django_to_graphene_type "SlugField" ["CharField"; "Field"; "RegisterLookupMixin"; "object"]
    PNone (PList [])
  = Some (GrapheneType graphene.String)
  /\ django_to_graphene_type "GeometryField" ["BaseSpatialField"; "Field"; "object"]
       PNone (PList [])
     = None.
Proof. split; reflexivity. Qed.

(** ** Merging data fields *)

Section MergeFacts.
Implicit Types (d b n : dict) (k : string).

Lemma set_NoDup {A} k (v : A) (d : list (string * A)) :
  NoDup (Dict.keys d) -> NoDup (Dict.keys (Dict.set k v d)).
Proof.
  intros Hnd. rewrite keys_set. destruct (Dict.has k d) eqn:Hhas; [done|].
  apply NoDup_app. split; [done|]. split; [|apply NoDup_singleton].
  intros x Hx Hk. apply list_elem_of_singleton in Hk as ->.
  apply has_keys in Hx. congruence.
Qed.

Lemma get_update d1 d2 k :
  NoDup (Dict.keys d2) ->
  Dict.get k (Dict.update d1 d2)
  = match Dict.get k d2 with Some v => Some v | None => Dict.get k d1 end.
Proof.
  unfold Dict.update. revert d1.
  induction d2 as [|[k1 v1] d2 IH]; intros d1 Hnd; [done|].
  simpl in Hnd. apply NoDup_cons in Hnd as [Hk1 Hnd].
  cbn [fold_left fst snd Dict.get]. rewrite IH by done.
  destruct (String.eqb k1 k) eqn:E.
  - apply eqb_string_true in E as ->.
    rewrite (proj2 (get_None_keys k d2) Hk1). apply get_set_eq.
  - apply eqb_string_false in E. by rewrite get_set_ne.
Qed.

Lemma get_pick ks d k :
  Dict.get k (R.pick ks d) = if bool_decide (k ∈ ks) then Dict.get k d else None.
Proof.
  unfold R.pick. induction d as [|[k1 v1] d IH]; simpl; [by case_bool_decide|].
  destruct (existsb (String.eqb k1) ks) eqn:Hex; simpl.
  - rewrite IH. destruct (String.eqb k1 k) eqn:E; [|done].
    apply eqb_string_true in E as ->. rewrite bool_decide_eq_true_2; [done|].
    apply existsb_exists in Hex as (x & Hx & Heq).
    apply eqb_string_true in Heq as ->. by apply list_elem_of_In.
  - rewrite IH. destruct (String.eqb k1 k) eqn:E; [|done].
    apply eqb_string_true in E as ->. rewrite bool_decide_eq_false_2; [done|].
    intros Hin. apply not_true_iff_false in Hex. apply Hex.
    apply existsb_exists. exists k. split; [by apply list_elem_of_In|].
    apply String.eqb_refl.
Qed.

Lemma get_omit ks d k :
  Dict.get k (R.omit ks d) = if bool_decide (k ∈ ks) then None else Dict.get k d.
Proof.
  unfold R.omit. induction d as [|[k1 v1] d IH]; simpl; [by case_bool_decide|].
  destruct (existsb (String.eqb k1) ks) eqn:Hex; simpl.
  - rewrite IH. destruct (String.eqb k1 k) eqn:E; [|done].
    apply eqb_string_true in E as ->. rewrite bool_decide_eq_true_2; [done|].
    apply existsb_exists in Hex as (x & Hx & Heq).
    apply eqb_string_true in Heq as ->. by apply list_elem_of_In.
  - rewrite IH. destruct (String.eqb k1 k) eqn:E; [|done].
    apply eqb_string_true in E as ->. rewrite bool_decide_eq_false_2; [done|].
    intros Hin. apply not_true_iff_false in Hex. apply Hex.
    apply existsb_exists. exists k. split; [by apply list_elem_of_In|].
    apply String.eqb_refl.
Qed.

Lemma pick_NoDup ks d : NoDup (Dict.keys d) -> NoDup (Dict.keys (R.pick ks d)).
Proof.
  intros Hnd. apply (sublist_NoDup _ _ Hnd). clear Hnd. unfold Dict.keys, R.pick.
  apply fmap_sublist. induction d as [|kv d IH]; [constructor|]. simpl.
  destruct (existsb _ ks); [by apply sublist_skip | by apply sublist_cons].
Qed.

Lemma get_map_values (f : pyval -> pyval) d k :
  Dict.get k (map (fun kv => (fst kv, f (snd kv))) d) = f <$> Dict.get k d.
Proof.
  induction d as [|[k1 v1] d IH]; simpl; [done|]. by destruct (String.eqb k1 k).
Qed.

(** The entries of two merged dicts: an entry of one of them only is
    kept, an entry of both is merged in its turn. *)
Lemma merge_deep_override_entries b n :
  NoDup (Dict.keys b) -> NoDup (Dict.keys n) ->
  exists m,
    merge_deep_override (PDict b) (PDict n) = PDict m
    /\ NoDup (Dict.keys m)
    /\ forall k,
        Dict.get k m
        = match Dict.get k n with
          | None => Dict.get k b
          | Some v =>
              match Dict.get k b with
              | None => Some v
              | Some bv => Some (merge_deep_override bv v)
              end
          end.
Proof.
  cbn [merge_deep_override]. revert b.
  induction n as [|[k1 v1] n IH]; intros b Hb Hn.
  - exists b. done.
  - simpl in Hn. apply NoDup_cons in Hn as [Hk1 Hn].
    set (b' := match Dict.get k1 b with
               | Some bv => Dict.set k1 (merge_deep_override bv v1) b
               | None => Dict.set k1 v1 b
               end).
    assert (Hb' : NoDup (Dict.keys b')).
    { unfold b'. destruct (Dict.get k1 b); by apply set_NoDup. }
    destruct (IH b' Hb' Hn) as (m & Hm & Hndm & Hget).
    exists m. split; [exact Hm|]. split; [done|].
    intros k. rewrite Hget. cbn [Dict.get].
    destruct (String.eqb k1 k) eqn:E.
    + apply eqb_string_true in E as ->.
      rewrite (proj2 (get_None_keys k n) Hk1). unfold b'.
      destruct (Dict.get k b); by rewrite get_set_eq.
    + apply eqb_string_false in E.
      assert (Hkb : Dict.get k b' = Dict.get k b).
      { unfold b'. destruct (Dict.get k1 b); by rewrite get_set_ne. }
      by rewrite Hkb.
Qed.

End MergeFacts.

Section DataFieldFacts.

Variable to_dict_deep : pyval -> pyval.

(** X13: [merge_data_fields_on_update] always returns, for an instance and
    data with distinct keys.  A key that is not a data field has the value
    the new data gives it, and none if the new data has none: the instance
    is not consulted.  A data field has the value of the instance if the new
    data has none, the new value (made a dict) if the instance has none, and
    otherwise the two merged, the new value replacing the old one unless both
    are dicts. *)
Theorem merge_data_fields_on_update_entries
    (data_fields : list string) (existing_instance_dict data : dict) :
  NoDup (Dict.keys existing_instance_dict) ->
  NoDup (Dict.keys data) ->
  exists merged,
    merge_data_fields_on_update to_dict_deep data_fields existing_instance_dict data
    = Ok merged
    /\ (forall k, k ∉ data_fields -> Dict.get k merged = Dict.get k data)
    /\ (forall k,
        k ∈ data_fields ->
        Dict.get k merged
        = match Dict.get k data with
          | None => Dict.get k existing_instance_dict
          | Some v =>
              match Dict.get k existing_instance_dict with
              | None => Some (to_dict_deep v)
              | Some old => Some (merge_deep_override old (to_dict_deep v))
              end
          end).
Proof.
  intros Hexisting Hdata. unfold merge_data_fields_on_update, R.map_with_obj.
  rewrite (mapM_total _ (fun kv => (fst kv, to_dict_deep (snd kv)))) by done.
  cbn [bind].
  assert (Hkeys : Dict.keys (map (fun kv => (fst kv, to_dict_deep (snd kv)))
                               (R.pick data_fields data))
                  = Dict.keys (R.pick data_fields data)).
  { unfold Dict.keys. by rewrite map_map. }
  pose proof (pick_NoDup data_fields data Hdata) as Hpick.
  rewrite of_pairs_NoDup by (by rewrite Hkeys).
  destruct (merge_deep_override_entries
              (R.pick data_fields existing_instance_dict)
              (map (fun kv => (fst kv, to_dict_deep (snd kv))) (R.pick data_fields data)))
    as (m & -> & Hndm & Hget); [by apply pick_NoDup | by rewrite Hkeys|].
  cbn [py_items bind]. eexists. split; [done|].
  unfold R.merge. split.
  - intros k Hk. rewrite get_update by done. rewrite Hget, get_map_values, !get_pick.
    rewrite bool_decide_eq_false_2 by done. simpl.
    rewrite get_omit. by rewrite bool_decide_eq_false_2.
  - intros k Hk. rewrite get_update by done. rewrite Hget, get_map_values, !get_pick.
    rewrite bool_decide_eq_true_2 by done. rewrite get_omit.
    rewrite bool_decide_eq_true_2 by done.
    destruct (Dict.get k data) as [v|]; simpl;
      by destruct (Dict.get k existing_instance_dict).
Qed.

End DataFieldFacts.

(** New data for the json field over an instance that has some. *)
Lemma merge_data_fields_on_update_entries_witness :
  let existing :=
    [("id", PInt 1); ("name", PStr "old");
     ("data", PDict [("a", PInt 1); ("tags", PList [PStr "x"])])] in
  let data :=
    [("id", PInt 1); ("data", PDict [("b", PInt 2); ("tags", PList [PStr "y"])])] in
  NoDup (Dict.keys existing)
  /\ NoDup (Dict.keys data)
  /\ merge_data_fields_on_update (fun v => v) ["data"] existing data
     = Ok [("id", PInt 1);
           ("data", PDict [("a", PInt 1); ("tags", PList [PStr "y"]); ("b", PInt 2)])]
  /\ exists merged,
      merge_data_fields_on_update (fun v => v) ["data"] existing data = Ok merged
      /\ (forall k, k ∉ ["data"] -> Dict.get k merged = Dict.get k data)
      /\ (forall k,
          k ∈ ["data"] ->
          Dict.get k merged
          = match Dict.get k data with
            | None => Dict.get k existing
            | Some v =>
                match Dict.get k existing with
                | None => Some v
                | Some old => Some (merge_deep_override old v)
                end
            end).
Proof.
  intros existing data.
  assert (He : NoDup (Dict.keys existing))
    by (apply (bool_decide_unpack _); vm_compute; exact I).
  assert (Hd : NoDup (Dict.keys data))
    by (apply (bool_decide_unpack _); vm_compute; exact I).
  split; [exact He|]. split; [exact Hd|]. split; [reflexivity|].
  exact (merge_data_fields_on_update_entries (fun v => v) ["data"] existing data He Hd).
Defined.

Section JsonFacts.

Variable objects_get_data : pyval -> result pyval.


End JsonFacts.

(** ** Worked inputs *)

(** A user with an id: the other fields go under ['defaults']. *)
Lemma input_type_parameters_with_id_witness :
  let fields_dict :=
    PDict [("username", PDict [("unique", PList [PStr UNIQUE])]);
           ("email", PDict []);
           ("region", PDict [("django_type", PClass "Region" [])])] in
  let field_name_to_value :=
    [("id", PInt 3); ("username", PStr "jo"); ("email", PStr "e");
     ("region", PDict [("id", PInt 5)])] in
  let pairs := [("username", PStr "jo"); ("email", PStr "e"); ("region_id", PInt 5)] in
  NoDup (Dict.keys field_name_to_value)
  /\ mapM (fun kv => modified_pair fields_dict (fst kv) (snd kv))
       (R.omit ["id"] field_name_to_value) = Ok pairs
  /\ input_type_parameters_for_update_or_create fields_dict field_name_to_value
     = Ok (PDict [("id", PInt 3); ("defaults", PDict (Dict.of_pairs pairs))]).
Proof.
  intros fields_dict field_name_to_value pairs.
  assert (Hnd : NoDup (Dict.keys field_name_to_value))
    by (apply (bool_decide_unpack _); vm_compute; exact I).
  split; [exact Hnd|]. split; [reflexivity|].
  exact (input_type_parameters_with_id fields_dict field_name_to_value (PInt 3) pairs
           Hnd eq_refl eq_refl).
Defined.

(** A user without an id: the unique name at top level, the rest under
    ['defaults']. *)
Lemma input_type_parameters_without_id_witness :
  let fields_dict :=
    PDict [("username", PDict [("unique", PList [PStr UNIQUE])]);
           ("email", PDict []);
           ("region", PDict [("django_type", PClass "Region" [])])] in
  let field_name_to_value :=
    [("username", PStr "jo"); ("email", PStr "e"); ("region", PDict [("id", PInt 5)])] in
  let pairs := [("username", PStr "jo"); ("email", PStr "e"); ("region_id", PInt 5)] in
  let flags := [true; false; false] in
  uniques (combine pairs flags) = [("username", PStr "jo")]
  /\ others (combine pairs flags) = [("email", PStr "e"); ("region_id", PInt 5)]
  /\ exists T,
      (forall pair,
          pair ∈ uniques (combine pairs flags) -> Dict.get (fst pair) T = Some (snd pair))
      /\ Dict.get "defaults" T
         = match others (combine pairs flags) with [] => None | o => Some (PDict o) end
      /\ (forall k,
          k ∈ Dict.keys T ->
          k ∈ Dict.keys (uniques (combine pairs flags)) \/ k = "defaults")
      /\ match uniques (combine pairs flags), others (combine pairs flags) with
         | [], _ :: _ =>
             input_type_parameters_for_update_or_create fields_dict field_name_to_value
             = Ok (PDict (others (combine pairs flags)))
         | [_], [] =>
             input_type_parameters_for_update_or_create fields_dict field_name_to_value
             = Raise (Exception "No key defaults found")
         | _, _ =>
             input_type_parameters_for_update_or_create fields_dict field_name_to_value
             = Ok (PDict T)
         end.
Proof.
  intros fields_dict field_name_to_value pairs flags.
  assert (Hnd : NoDup (Dict.keys field_name_to_value))
    by (apply (bool_decide_unpack _); vm_compute; exact I).
  assert (Hndp : NoDup (Dict.keys pairs))
    by (apply (bool_decide_unpack _); vm_compute; exact I).
  assert (Hdef : "defaults" ∉ Dict.keys (uniques (combine pairs flags)))
    by (apply (bool_decide_unpack _); vm_compute; exact I).
  split; [reflexivity|]. split; [reflexivity|].
  exact (input_type_parameters_without_id fields_dict field_name_to_value pairs flags
           Hnd eq_refl eq_refl eq_refl Hndp Hdef).
Defined.

(** A negated filter on a name. *)
Lemma process_query_kwarg_not_single_occurrence_witness :
  PyStr.contains "__not" ("name__contains" +:+ "__no") = false
  /\ process_query_kwarg true
       (fun _ => {| _forward_fields_map := []; related_objects := [] |})
       (fun d _ _ => d)
       {| _forward_fields_map := []; related_objects := [] |}
       ("name__contains" +:+ "__not") (PStr "jo")
     = Ok [Not (Q "name__contains" (PStr "jo"))].
Proof.
  split; [reflexivity|].
  exact (process_query_kwarg_not_single_occurrence true
           (fun _ => {| _forward_fields_map := []; related_objects := [] |})
           (fun d _ _ => d)
           {| _forward_fields_map := []; related_objects := [] |}
           "name__contains" (PStr "jo") eq_refl).
Defined.


(** The fields of a user for a read: the password is denied. *)
Lemma input_type_fields_generates_witness :
  let fields :=
    [("name", PDict [("type", graphene.String)]);
     ("password", PDict [("type", graphene.String); ("read", PStr DENY)])] in
  let generated := [("name", PCall graphene.String [] [("required", PBool false)])] in
  input_type_fields scalar_call (fun _ _ _ => Raise TypeError)
    (PDict fields) (Some READ) (PList [])
  = Ok generated
  /\ ("name" ∈ Dict.keys generated
      <-> exists cfg,
          Dict.get "name" fields = Some (PDict cfg)
          /\ Dict.get READ cfg <> Some (PStr DENY)).
Proof.
  intros fields generated.
  assert (Hnd : NoDup (Dict.keys fields))
    by (apply (bool_decide_unpack _); vm_compute; exact I).
  assert (Hdicts : forall name v, (name, v) ∈ fields -> exists cfg, v = PDict cfg).
  { intros name v Hin.
    apply elem_of_cons in Hin as [[= -> ->]|Hin]; [by eexists|].
    apply elem_of_cons in Hin as [[= -> ->]|Hin]; [by eexists|].
    by apply elem_of_nil in Hin. }
  assert (Hcrud : READ <> "") by discriminate.
  split; [reflexivity|].
  exact (input_type_fields_generates scalar_call (fun _ _ _ => Raise TypeError)
           (PDict fields) (PList []) fields generated READ
           eq_refl Hnd Hdicts Hcrud eq_refl "name").
Defined.

(** The same fields for [allowed_read_fields]. *)
Lemma allowed_read_fields_generates_witness :
  let fields :=
    [("name", PDict [("type", graphene.String)]);
     ("password", PDict [("type", graphene.String); ("read", PList [PStr DENY])])] in
  let generated := [("name", PCall graphene.String [] [])] in
  allowed_read_fields scalar_call (fun _ _ _ => Raise TypeError)
    (PDict fields) graphene.ObjectType
  = Ok generated
  /\ ("password" ∈ Dict.keys generated
      <-> exists cfg,
          Dict.get "password" fields = Some (PDict cfg)
          /\ is_or_contains DENY (Dict.get READ cfg) = false).
Proof.
  intros fields generated.
  assert (Hnd : NoDup (Dict.keys fields))
    by (apply (bool_decide_unpack _); vm_compute; exact I).
  assert (Hdicts : forall name v, (name, v) ∈ fields -> exists cfg, v = PDict cfg).
  { intros name v Hin.
    apply elem_of_cons in Hin as [[= -> ->]|Hin]; [by eexists|].
    apply elem_of_cons in Hin as [[= -> ->]|Hin]; [by eexists|].
    by apply elem_of_nil in Hin. }
  split; [reflexivity|].
  exact (allowed_read_fields_generates scalar_call (fun _ _ _ => Raise TypeError)
           graphene.ObjectType fields generated Hnd Hdicts eq_refl "password").
Defined.

